(** * SoAPy.analysis: spectral comparison metrics

    A shallow embedding of [SoAPy/analysis.py] and the properties of its
    seven functions: the three overlap ratios, [compute_statistics], the two
    sign diagnostics and [opt_rot_averaging].

    Numbers.  The Python code computes with NumPy [float64] values.  Here a
    number is a real ([R]) and arithmetic is exact.  Where NumPy would leave
    the reals (a division by zero or the mean of an empty array gives [inf]
    or [nan], the square root of a negative number gives [nan]) the model
    records the outcome [NonFinite] and does not follow the run any further.

    Errors.  A Python exception is the outcome [Raise e]; a local variable
    that may be unbound is an [option]. *)

From Stdlib Require Import Reals Lra Lia ZArith Ascii String.
From stdpp Require Import base list strings.

(** ** Outcomes of a call *)

Inductive exn : Set :=
  | IndexError
  | TypeError
  | ValueError
  | ZeroDivisionError
  | UnboundLocalError.

Inductive outcome (A : Type) : Type :=
  | Return (a : A)
  | Raise (e : exn)
  | NonFinite.

Arguments Return {A} a.
Arguments Raise {A} e.
Arguments NonFinite {A}.

Definition outcome_bind {A B : Type} (f : A -> outcome B) (m : outcome A) : outcome B :=
  match m with
  | Return a => f a
  | Raise e => Raise e
  | NonFinite => NonFinite
  end.

Definition outcome_map {A B : Type} (f : A -> B) (m : outcome A) : outcome B :=
  match m with
  | Return a => Return (f a)
  | Raise e => Raise e
  | NonFinite => NonFinite
  end.

#[global] Instance outcome_ret : MRet outcome := fun A a => Return a.
#[global] Instance outcome_mbind : MBind outcome := fun A B f m => outcome_bind f m.
#[global] Instance outcome_fmap : FMap outcome := fun A B f m => outcome_map f m.

(** [for_each idx body s] runs [body] at every index of [idx], threading the
    loop state; [for_range n] is [for a in range(n)]. *)
Fixpoint for_each {S : Type} (idx : list nat) (body : nat -> S -> outcome S) (s : S)
  : outcome S :=
  match idx with
  | [] => Return s
  | a :: rest => s' ← body a s; for_each rest body s'
  end.

Definition for_range {S : Type} (n : nat) (body : nat -> S -> outcome S) (s : S)
  : outcome S :=
  for_each (seq 0 n) body s.

(** Reading a local variable that an earlier branch may have left unbound. *)
Definition read_local {A : Type} (v : option A) : outcome A :=
  match v with
  | Some a => Return a
  | None => Raise UnboundLocalError
  end.

(** ** Python sequences *)

(** [l[i]] on a list with an index the loops produce ([0 <= i]). *)
Definition getitem {A : Type} (l : list A) (i : nat) : outcome A :=
  match l !! i with
  | Some x => Return x
  | None => Raise IndexError
  end.

(** [l[i]] with a caller-supplied index: a negative [i] counts from the end. *)
Definition py_index {A : Type} (l : list A) (i : Z) : outcome A :=
  if (0 <=? i)%Z then getitem l (Z.to_nat i)
  else if (- Z.of_nat (length l) <=? i)%Z then getitem l (Z.to_nat (Z.of_nat (length l) + i))
  else Raise IndexError.

(** ** Python objects held by a parameter row

    A row of [dir_parameters] mixes strings, numbers and sequences;
    [opt_rot_averaging] applies [len], [int] and [float] to its entries. *)

#[local] Unset Elimination Schemes.
Inductive pyobj : Type :=
  | PyStr (s : string)
  | PyNum (r : R)
  | PyList (l : list pyobj).
#[local] Set Elimination Schemes.

Definition py_len (o : pyobj) : outcome nat :=
  match o with
  | PyStr s => Return (String.length s)
  | PyList l => Return (length l)
  | PyNum _ => Raise TypeError
  end.

(** *** [int] of a string, base 10

    A string is the sequence of its code points, each below 256.  [int]
    strips white space on both sides, takes an optional sign and then
    decimal digits, single underscores being allowed between digits.  The
    interpreter's cap on the number of digits is not modelled. *)

Definition is_space (c : ascii) : bool :=
  let n := nat_of_ascii c in
  ((9 <=? n) && (n <=? 13) || (n =? 32) || (n =? 133) || (n =? 160))%nat.

Definition digit_of (c : ascii) : option Z :=
  let n := nat_of_ascii c in
  if ((48 <=? n) && (n <=? 57))%nat then Some (Z.of_nat (n - 48)) else None.

Inductive scan : Set := AtStart | AfterDigit | AfterUnderscore.

Fixpoint parse_digits (st : scan) (acc : Z) (s : list ascii) : option Z :=
  match s with
  | [] => match st with AfterDigit => Some acc | _ => None end
  | c :: rest =>
      match digit_of c with
      | Some d => parse_digits AfterDigit (10 * acc + d)%Z rest
      | None =>
          if Ascii.eqb c "_"%char then
            match st with
            | AfterDigit => parse_digits AfterUnderscore acc rest
            | _ => None
            end
          else None
      end
  end.

Fixpoint lstrip (s : list ascii) : list ascii :=
  match s with
  | c :: rest => if is_space c then lstrip rest else s
  | [] => []
  end.

Definition strip (s : list ascii) : list ascii :=
  rev (lstrip (rev (lstrip s))).

Definition parse_int (s : string) : option Z :=
  match strip (list_ascii_of_string s) with
  | c :: rest =>
      if Ascii.eqb c "-"%char then Z.opp <$> parse_digits AtStart 0 rest
      else if Ascii.eqb c "+"%char then parse_digits AtStart 0 rest
      else parse_digits AtStart 0 (c :: rest)
  | [] => None
  end.

(** Truncation towards zero, [int] of a number. *)
Definition Rtrunc (r : R) : Z :=
  if Rle_dec 0 r then Int_part r else (- Int_part (- r))%Z.

Definition py_int (o : pyobj) : outcome Z :=
  match o with
  | PyStr s => match parse_int s with Some z => Return z | None => Raise ValueError end
  | PyNum r => Return (Rtrunc r)
  | PyList _ => Raise TypeError
  end.

(** [float] of an entry.  For a string only the integer literals are
    modelled: [opt_rot_averaging] reaches [float] after [int] has accepted
    the same string, and both read such a literal as the same number. *)
Definition py_float (o : pyobj) : outcome R :=
  match o with
  | PyStr s => match parse_int s with Some z => Return (IZR z) | None => Raise ValueError end
  | PyNum r => Return r
  | PyList _ => Raise TypeError
  end.

(** Division of two Python floats. *)
Definition py_truediv (x y : R) : outcome R :=
  if Req_dec_T y 0 then Raise ZeroDivisionError else Return (x / y)%R.

(** ** NumPy arithmetic on one-dimensional arrays *)

(** Division of NumPy scalars: a zero divisor gives [inf] or [nan]. *)
Definition np_div (x y : R) : outcome R :=
  if Req_dec_T y 0 then NonFinite else Return (x / y)%R.

Definition np_sqrt (x : R) : outcome R :=
  if Rlt_dec x 0 then NonFinite else Return (sqrt x).

Definition Rsum (l : list R) : R := foldr Rplus 0%R l.

(** [np.average(l)]: the mean of an empty array is [nan]. *)
Definition np_average (l : list R) : outcome R :=
  match l with
  | [] => NonFinite
  | _ => Return (Rsum l / INR (length l))%R
  end.

(** An element-wise operation with broadcasting: shapes [(m,)] and [(n,)]
    combine when [m = n] or one of them is 1, else [ValueError]. *)
Definition np_binop (f : R -> R -> R) (a b : list R) : outcome (list R) :=
  if (length a =? length b)%nat then Return (zip_with f a b)
  else match a, b with
       | [x], _ => Return (map (f x) b)
       | _, [y] => Return (map (fun x => f x y) a)
       | _, _ => Raise ValueError
       end.

Definition np_mul : list R -> list R -> outcome (list R) := np_binop Rmult.

(** [np.diff(x)]: [x[i+1] - x[i]]. *)
Definition np_diff (x : list R) : list R := zip_with Rminus (tail x) x.

(** [y[1:] + y[:-1]]; the two slices always have the same length. *)
Definition pair_sums (y : list R) : list R := zip_with Rplus (tail y) y.

(** [np.trapz(y, x=x)] is [(diff(x) * (y[1:] + y[:-1]) / 2.0).sum()]. *)
Definition np_trapz (y x : list R) : outcome R :=
  prod ← np_mul (np_diff x) (pair_sums y);
  Return (Rsum (map (fun t => t / 2)%R prod)).

(** [np.trapz(y * y, x = x)], the self-overlap integral of a curve. *)
Definition self_overlap (y x : list R) : outcome R :=
  np_mul y y ≫= (fun yy => np_trapz yy x).

(** ** The overlap family *)

Definition spectra : Type := list (list R).

Definition single_denominator_overlap
    (dir_frequency_axis dir_intensity_axis : spectra) (sample_index reference_index : Z)
  : outcome R :=
  sample_intensity ← py_index dir_intensity_axis sample_index;
  reference_frequency ← py_index dir_frequency_axis reference_index;
  reference_intensity ← py_index dir_intensity_axis reference_index;
  rs ← np_mul reference_intensity sample_intensity;
  numerator ← np_trapz rs reference_frequency;
  rr ← np_mul reference_intensity reference_intensity;
  denominator ← np_trapz rr reference_frequency;
  np_div numerator denominator.

Definition double_denominator_overlap
    (dir_frequency_axis dir_intensity_axis : spectra) (sample_index reference_index : Z)
  : outcome R :=
  sample_intensity ← py_index dir_intensity_axis sample_index;
  reference_frequency ← py_index dir_frequency_axis reference_index;
  reference_intensity ← py_index dir_intensity_axis reference_index;
  rs ← np_mul reference_intensity sample_intensity;
  numerator ← np_trapz rs reference_frequency;
  rr ← np_mul reference_intensity reference_intensity;
  ref_self ← np_trapz rr reference_frequency;
  ss ← np_mul sample_intensity sample_intensity;
  sample_self ← np_trapz ss reference_frequency;
  denominator ← np_sqrt (ref_self * sample_self);
  np_div numerator denominator.

Definition np_square (a : list R) : list R := map (fun x => x ^ 2)%R a.

Definition integrated_difference
    (dir_frequency_axis dir_intensity_axis : spectra) (sample_index reference_index : Z)
  : outcome R :=
  sample_intensity ← py_index dir_intensity_axis sample_index;
  reference_frequency ← py_index dir_frequency_axis reference_index;
  reference_intensity ← py_index dir_intensity_axis reference_index;
  ref_self ← np_trapz (np_square reference_intensity) reference_frequency;
  sample_self ← np_trapz (np_square sample_intensity) reference_frequency;
  let numerator := (ref_self - sample_self)%R in
  denominator ← np_trapz (np_square reference_intensity) reference_frequency;
  np_div numerator denominator.

(** ** Statistics *)

(** The locals of the variance loop.  [sample_variance] and
    [reference_variance] are bound by the first iteration only. *)
Record stat_state : Type := mk_stat {
  sample_variance_numerator : R;
  reference_variance_numerator : R;
  sample_variance : option R;
  reference_variance : option R
}.

(** One iteration of [for b in range(len(dir_intensities[sample_index]))].
    The means are [outcome]s: a [nan] mean stays a value until it is used. *)
Definition stat_body (sample reference : list R) (sample_mean reference_mean : outcome R)
    (b : nat) (st : stat_state) : outcome stat_state :=
  x ← getitem sample b;
  sm ← sample_mean;
  let svn := (sample_variance_numerator st + (x - sm) ^ 2)%R in
  sv ← np_div svn (INR (length sample));
  y ← getitem reference b;
  rm ← reference_mean;
  let rvn := (reference_variance_numerator st + (y - rm) ^ 2)%R in
  rv ← np_div rvn (INR (length reference));
  Return (mk_stat svn rvn (Some sv) (Some rv)).

Definition variance_loop (sample reference : list R) (sample_mean reference_mean : outcome R)
  : outcome stat_state :=
  for_range (length sample) (stat_body sample reference sample_mean reference_mean)
    (mk_stat 0 0 None None).

Definition compute_statistics (dir_intensities : spectra) (sample_index reference_index : Z)
  : outcome (R * R * R) :=
  sample ← py_index dir_intensities sample_index;
  let sample_mean := np_average sample in
  reference ← py_index dir_intensities reference_index;
  let reference_mean := np_average reference in
  st ← variance_loop sample reference sample_mean reference_mean;
  sv ← read_local (sample_variance st);
  sample_standard_deviation ← np_sqrt sv;
  rv ← read_local (reference_variance st);
  reference_standard_deviation ← np_sqrt rv;
  rm ← reference_mean;
  sm ← sample_mean;
  let mean_diff := Rabs (rm - sm) in
  let variance_diff := Rabs (rv - sv) in
  let standard_deviation_diff :=
    Rabs (reference_standard_deviation - sample_standard_deviation) in
  Return (mean_diff, variance_diff, standard_deviation_diff).

(** The quantities the statistics are compared with: the arithmetic mean,
    the sum of squared deviations from [m], and the population variance. *)
Definition mean (l : list R) : R := (Rsum l / INR (length l))%R.

Definition sq_dev_sum (m : R) (l : list R) : R := Rsum (map (fun x => (x - m) ^ 2)%R l).

Definition population_variance (l : list R) : R :=
  (sq_dev_sum (mean l) l / INR (length l))%R.

(** What [sample_variance] and [reference_variance] hold after [k] rounds of
    the loop: unbound before the first round, numerator over length after. *)
Definition bound_after (k : nat) (numerator : R) (n : nat) : option R :=
  match k with
  | O => None
  | S _ => Some (numerator / INR n)%R
  end.

(** ** Sign and ordering diagnostics *)

(** The [if x > 0: sign = 1 elif x < 0: sign = -1] statement: a zero [x]
    leaves [sign] as it was. *)
Definition assign_sign (x : R) (sign : option Z) : option Z :=
  if Rlt_dec 0 x then Some 1%Z
  else if Rlt_dec x 0 then Some (-1)%Z
  else sign.

Record sign_state : Type := mk_sign {
  delta_freq : list R;
  sign_change : list Z;
  sign : option Z
}.

Definition wrong_signs_body
    (sample_frequency sample_intensity reference_frequency reference_intensity : list R)
    (a : nat) (st : sign_state) : outcome sign_state :=
  rf ← getitem reference_frequency a;
  sf ← getitem sample_frequency a;
  let frequency_displacement := (rf - sf)%R in
  si ← getitem sample_intensity a;
  ri ← getitem reference_intensity a;
  intensity_sign ← np_div si ri;
  let sign' := assign_sign intensity_sign (sign st) in
  let delta_freq' := delta_freq st ++ [frequency_displacement] in
  s ← read_local sign';
  Return (mk_sign delta_freq' (sign_change st ++ [s]) sign').

Definition wrong_signs
    (dir_frequencies dir_intensities : spectra) (sample_index reference_index : Z)
  : outcome (list R * list Z) :=
  sample_frequency ← py_index dir_frequencies sample_index;
  sample_intensity ← py_index dir_intensities sample_index;
  reference_frequency ← py_index dir_frequencies reference_index;
  reference_intensity ← py_index dir_intensities reference_index;
  st ← for_range (length reference_frequency)
         (wrong_signs_body sample_frequency sample_intensity
            reference_frequency reference_intensity)
         (mk_sign [] [] None);
  Return (delta_freq st, sign_change st).

Record slope_state : Type := mk_slope {
  slope_sign : list Z;
  slope_local_sign : option Z
}.

Definition reordering_body
    (sample_frequency sample_intensity reference_frequency reference_intensity : list R)
    (a : nat) (st : slope_state) : outcome slope_state :=
  if (a =? length reference_frequency - 1)%nat then
    Return (mk_slope (slope_sign st ++ [0%Z]) (slope_local_sign st))
  else
    rf0 ← getitem reference_frequency a;
    rf1 ← getitem reference_frequency (a + 1);
    let delta_reference_frequency := (rf0 - rf1)%R in
    ri0 ← getitem reference_intensity a;
    ri1 ← getitem reference_intensity (a + 1);
    let delta_reference_intensity := (ri0 - ri1)%R in
    reference_derivative ← np_div delta_reference_intensity delta_reference_frequency;
    sf0 ← getitem sample_frequency a;
    sf1 ← getitem sample_frequency (a + 1);
    let delta_sample_frequency := (sf0 - sf1)%R in
    si0 ← getitem sample_intensity a;
    si1 ← getitem sample_intensity (a + 1);
    let delta_sample_intensity := (si0 - si1)%R in
    sample_derivative ← np_div delta_sample_intensity delta_sample_frequency;
    derivative_sign ← np_div sample_derivative reference_derivative;
    let sign' := assign_sign derivative_sign (slope_local_sign st) in
    s ← read_local sign';
    Return (mk_slope (slope_sign st ++ [s]) sign').

Definition normal_mode_reordering
    (dir_frequencies dir_intensities : spectra) (sample_index reference_index : Z)
  : outcome (list Z) :=
  sample_frequency ← py_index dir_frequencies sample_index;
  sample_intensity ← py_index dir_intensities sample_index;
  reference_frequency ← py_index dir_frequencies reference_index;
  reference_intensity ← py_index dir_intensities reference_index;
  st ← for_range (length reference_frequency)
         (reordering_body sample_frequency sample_intensity
            reference_frequency reference_intensity)
         (mk_slope [] None);
  Return (slope_sign st).

(** The sign entries the first [k] rounds of [wrong_signs] are expected to
    produce: the sign of the ratio where the ratio is not zero, a copy of
    the entry before where it is zero. *)
Definition signs_follow (sample_intensity reference_intensity : list R)
    (signs : list Z) (k : nat) : Prop :=
  forall a si ri,
    (a < k)%nat -> sample_intensity !! a = Some si -> reference_intensity !! a = Some ri ->
    (0 < si / ri -> signs !! a = Some 1%Z)%R
    /\ (si / ri < 0 -> signs !! a = Some (-1)%Z)%R
    /\ ((si / ri)%R = 0%R -> signs !! a = signs !! (a - 1)%nat).

(** The slope of a sampled curve over the pair [(a, a+1)], intensity
    difference over frequency difference, where both points exist and the
    two frequencies differ. *)
Definition slope (frequency intensity : list R) (a : nat) : option R :=
  f0 ← frequency !! a; f1 ← frequency !! (a + 1)%nat;
  i0 ← intensity !! a; i1 ← intensity !! (a + 1)%nat;
  if Req_dec_T (f1 - f0) 0 then None else Some ((i1 - i0) / (f1 - f0))%R.

(** The sample slope divided by the reference slope over the pair
    [(a, a+1)], where both slopes exist and the reference slope is not zero. *)
Definition slope_ratio
    (sample_frequency sample_intensity reference_frequency reference_intensity : list R)
    (a : nat) : option R :=
  s ← slope sample_frequency sample_intensity a;
  r ← slope reference_frequency reference_intensity a;
  if Req_dec_T r 0 then None else Some (s / r)%R.

(** ** Averaging over repeated blocks *)

(** [averages[c] += q]. *)
Definition add_at (c : nat) (q : R) (averages : list R) : outcome (list R) :=
  old ← getitem averages c;
  Return (<[c := (old + q)%R]> averages).

(** The body of [for c in range(len(dir_parameters[a][6]))] in block [b];
    [d] is the local [d = len(dir_parameters[a][5])].  The two [print]
    calls have no effect on the result and are left out. *)
Definition channel_body (dir_intensities : spectra) (p5 : pyobj) (molecule_MM : R)
    (a d b c : nat) (averages : list R) : outcome (list R) :=
  row ← getitem dir_intensities a;
  x ← getitem row (d * b + c);
  count ← py_float p5;
  q ← (if Req_dec_T molecule_MM 0 then py_truediv x count
       else py_truediv x (count * molecule_MM));
  add_at c q averages.

(** What every addend is divided by: the block count, times the molar mass
    when that is not zero. *)
Definition divisor (count molecule_MM : R) : R :=
  if Req_dec_T molecule_MM 0 then count else (count * molecule_MM)%R.

(** The sum of the entries [row[d*b + c]] over the blocks [b < blocks],
    each divided by [div]: what channel [c] holds after reading [blocks]
    blocks with stride [d]. *)
Definition strided_sum (row : list R) (d c blocks : nat) (div : R) : R :=
  Rsum (map (fun b => nth (d * b + c) row 0 / div)%R (seq 0 blocks)).

(** One molecule: the [while b < int(dir_parameters[a][5])] loop counts [b]
    up from 0 by 1 and so runs [int(...)] times (not at all for a count
    below 1); [int] is evaluated before the first block. *)
Definition molecule_averages (dir_intensities : spectra) (dir_parameters : list (list pyobj))
    (molecule_MM : R) (a : nat) : outcome (list R) :=
  params ← getitem dir_parameters a;
  p6 ← getitem params 6;
  channels ← py_len p6;
  let averages := replicate channels 0%R in
  p5 ← getitem params 5;
  d ← py_len p5;
  count ← py_int p5;
  for_range (Z.to_nat count)
    (fun b => for_range channels (channel_body dir_intensities p5 molecule_MM a d b))
    averages.

Definition opt_rot_averaging {A : Type} (dir_intensities : spectra)
    (dir_parameters : list (list pyobj)) (dir_list : list A) (molecule_MM : R)
  : outcome (list R) :=
  for_range (length dir_list)
    (fun a opt_rot_averages =>
       averages ← molecule_averages dir_intensities dir_parameters molecule_MM a;
       Return (opt_rot_averages ++ averages))
    [].

(** A parameter row whose entry 5 is the string [count] and whose entry 6
    is the sequence [channels]; the five entries before are not read. *)
Definition parameter_row (count : string) (channels : list pyobj) : list pyobj :=
  [PyStr "OR"; PyStr "spherical"; PyStr "B3LYP"; PyStr "aug-cc-pVDZ"; PyStr "10";
   PyStr count; PyList channels].

(** The value of [np.trapz(y, x=x)] on arrays of one length. *)
Definition trapz_sum (y x : list R) : R :=
  Rsum (map (fun t => t / 2)%R (zip_with Rmult (np_diff x) (pair_sums y))).

(** A frequency axis that never steps back. *)
Definition nondecreasing (x : list R) : Prop :=
  forall i a b, x !! i = Some a -> x !! S i = Some b -> (a <= b)%R.


(** The outcomes [opt_rot_averaging] can have: a result, or one of the three
    exceptions its indexing and conversions raise. *)
Definition benign {A : Type} (o : outcome A) : Prop :=
  match o with
  | Return _ | Raise IndexError | Raise TypeError | Raise ValueError => True
  | Raise ZeroDivisionError | Raise UnboundLocalError | NonFinite => False
  end.

(** [len(params[6])], the number of channels of a parameter row (0 where
    the row has no sized entry 6). *)
Definition channel_count (params : list pyobj) : nat :=
  match params !! 6%nat with
  | Some (PyStr s) => String.length s
  | Some (PyList l) => length l
  | _ => 0%nat
  end.

(** An index outside [-len, len) of a collection. *)
Definition outside {A : Type} (l : list A) (i : Z) : Prop :=
  (i < - Z.of_nat (length l) \/ Z.of_nat (length l) <= i)%Z.

(** Two indices that select the same position of a collection of [n]
    entries: equal, or [i] negative and [i' = n + i]. *)
Definition same_position (n : nat) (i i' : Z) : Prop :=
  i' = i \/ ((- Z.of_nat n <= i < 0)%Z /\ i' = (Z.of_nat n + i)%Z).

(** * Properties *)

(** ** Loops and outcomes *)

Ltac mstep :=
  cbn [mbind outcome_mbind outcome_bind mret outcome_ret fmap outcome_fmap outcome_map].

Lemma bind_inv {A B : Type} (m : outcome A) (f : A -> outcome B) (b : B) :
  (m ≫= f) = Return b -> exists a, m = Return a /\ f a = Return b.
Proof. destruct m as [a | e |]; simpl; intros H; [eauto | discriminate | discriminate]. Qed.

Lemma for_each_app {S : Type} (l1 l2 : list nat) (body : nat -> S -> outcome S) (s : S) :
  for_each (l1 ++ l2) body s = (for_each l1 body s ≫= for_each l2 body).
Proof.
  revert s. induction l1 as [| a l1 IH]; intros s; simpl; [reflexivity |].
  destruct (body a s) as [s' | e |]; simpl; [apply IH | reflexivity | reflexivity].
Qed.

Lemma for_range_0 {S : Type} (body : nat -> S -> outcome S) (s : S) :
  for_range 0 body s = Return s.
Proof. reflexivity. Qed.

Lemma for_range_S {S : Type} (n : nat) (body : nat -> S -> outcome S) (s : S) :
  for_range (Datatypes.S n) body s = (for_range n body s ≫= body n).
Proof.
  unfold for_range. rewrite seq_S, for_each_app. simpl.
  destruct (for_each (seq 0 n) body s) as [s' | e |]; simpl; [| reflexivity | reflexivity].
  destruct (body n s'); reflexivity.
Qed.

Lemma getitem_Some {A : Type} (l : list A) (i : nat) (x : A) :
  l !! i = Some x -> getitem l i = Return x.
Proof. unfold getitem. now intros ->. Qed.

Lemma getitem_lt {A : Type} (l : list A) (i : nat) :
  (i < length l)%nat -> exists x, l !! i = Some x /\ getitem l i = Return x.
Proof.
  intros H. destruct (lookup_lt_is_Some_2 l i H) as [x Hx].
  exists x. split; [exact Hx | now apply getitem_Some].
Qed.

(** ** Real arithmetic of the model *)

Section Arithmetic.
Local Open Scope R_scope.

Lemma np_div_ok (x y : R) : y <> 0 -> np_div x y = Return (x / y).
Proof.
  intros H. unfold np_div. destruct (Req_dec_T y 0); [contradiction | reflexivity].
Qed.

Lemma np_div_zero (x : R) : np_div x 0 = NonFinite.
Proof. unfold np_div. destruct (Req_dec_T 0 0); [reflexivity | contradiction]. Qed.

Lemma py_truediv_ok (x y : R) : y <> 0 -> py_truediv x y = Return (x / y).
Proof.
  intros H. unfold py_truediv. destruct (Req_dec_T y 0); [contradiction | reflexivity].
Qed.

Lemma np_sqrt_ok (x : R) : 0 <= x -> np_sqrt x = Return (sqrt x).
Proof. intros H. unfold np_sqrt. destruct (Rlt_dec x 0); [lra | reflexivity]. Qed.

Lemma assign_sign_pos (x : R) (s : option Z) : 0 < x -> assign_sign x s = Some 1%Z.
Proof.
  intros H. unfold assign_sign. destruct (Rlt_dec 0 x); [reflexivity | contradiction].
Qed.

Lemma assign_sign_neg (x : R) (s : option Z) : x < 0 -> assign_sign x s = Some (-1)%Z.
Proof.
  intros H. unfold assign_sign.
  destruct (Rlt_dec 0 x); [lra |]. destruct (Rlt_dec x 0); [reflexivity | contradiction].
Qed.

Lemma assign_sign_zero (s : option Z) : assign_sign 0 s = s.
Proof.
  unfold assign_sign. destruct (Rlt_dec 0 0); [lra | reflexivity].
Qed.

Lemma assign_sign_nonzero (x : R) (s : option Z) :
  x <> 0 -> exists z, assign_sign x s = Some z /\ (0 < x -> z = 1%Z) /\ (x < 0 -> z = (-1)%Z).
Proof.
  intros H. destruct (Rtotal_order x 0) as [Hn | [H0 | Hp]]; [| contradiction |].
  - exists (-1)%Z. rewrite assign_sign_neg by exact Hn.
    split; [reflexivity | split; intros; [lra | reflexivity]].
  - exists 1%Z. rewrite assign_sign_pos by lra.
    split; [reflexivity | split; intros; [reflexivity | lra]].
Qed.

Lemma Rdiv_nonzero (a b : R) : a <> 0 -> b <> 0 -> a / b <> 0.
Proof.
  intros Ha Hb. unfold Rdiv. apply Rmult_integral_contrapositive_currified;
    [exact Ha | now apply Rinv_neq_0_compat].
Qed.

Lemma Rsum_app (l1 l2 : list R) : Rsum (l1 ++ l2) = Rsum l1 + Rsum l2.
Proof.
  unfold Rsum. induction l1 as [| x l1 IH]; simpl; [lra |]. rewrite IH. lra.
Qed.

Lemma Rsum_map_scal (c : R) (l : list R) : Rsum (map (fun t => c * t) l) = c * Rsum l.
Proof.
  unfold Rsum. induction l as [| x l IH]; simpl; [lra |]. rewrite IH. lra.
Qed.

Lemma Rsum_squares_nonneg (m : R) (l : list R) : 0 <= Rsum (map (fun x => (x - m) ^ 2) l).
Proof.
  unfold Rsum. induction l as [| x l IH]; cbn [map foldr]; [lra |].
  pose proof (pow2_ge_0 (x - m)). lra.
Qed.
End Arithmetic.

(** ** Trapezoidal integration *)

Section Trapz.
Local Open Scope R_scope.

Lemma zip_with_diag (f : R -> R -> R) (l : list R) :
  zip_with f l l = map (fun x => f x x) l.
Proof. induction l as [| x l IH]; simpl; [reflexivity | now rewrite IH]. Qed.

Lemma np_mul_self (y : list R) : np_mul y y = Return (map (fun x => x * x) y).
Proof.
  unfold np_mul, np_binop. rewrite Nat.eqb_refl. now rewrite zip_with_diag.
Qed.

Lemma np_square_mul (y : list R) : np_square y = map (fun x => x * x) y.
Proof.
  unfold np_square. apply map_ext. intros x. simpl. lra.
Qed.

Lemma self_overlap_square (y x : list R) : self_overlap y x = np_trapz (np_square y) x.
Proof. unfold self_overlap. now rewrite np_mul_self, np_square_mul. Qed.

Lemma zip_with_scal_r (c : R) (a b : list R) :
  zip_with Rmult a (map (Rmult c) b) = map (Rmult c) (zip_with Rmult a b).
Proof.
  revert b. induction a as [| x a IH]; intros [| y b]; simpl; try reflexivity.
  rewrite IH. f_equal. lra.
Qed.

Lemma zip_with_scal_l (c : R) (a b : list R) :
  zip_with Rmult (map (Rmult c) a) b = map (Rmult c) (zip_with Rmult a b).
Proof.
  revert b. induction a as [| x a IH]; intros [| y b]; simpl; try reflexivity.
  rewrite IH. f_equal. lra.
Qed.

(** Scaling one factor of a broadcast product scales the product. *)
Lemma np_mul_scal_r (c : R) (a b : list R) :
  np_mul a (map (Rmult c) b) = map (Rmult c) <$> np_mul a b.
Proof.
  unfold np_mul, np_binop. rewrite length_map.
  destruct (length a =? length b)%nat.
  - simpl. now rewrite zip_with_scal_r.
  - destruct a as [| x [| x' a]]; destruct b as [| y [| y' b]]; simpl;
      try reflexivity; f_equal; repeat (apply (f_equal2 cons); [lra |]);
      try reflexivity; rewrite ?map_map; apply map_ext; intros; lra.
Qed.

Lemma np_mul_scal_l (c : R) (a b : list R) :
  np_mul (map (Rmult c) a) b = map (Rmult c) <$> np_mul a b.
Proof.
  unfold np_mul, np_binop. rewrite length_map.
  destruct (length a =? length b)%nat.
  - simpl. now rewrite zip_with_scal_l.
  - destruct a as [| x [| x' a]]; destruct b as [| y [| y' b]]; simpl;
      try reflexivity; f_equal; repeat (apply (f_equal2 cons); [lra |]);
      try reflexivity; rewrite ?map_map; apply map_ext; intros; lra.
Qed.

(** The broadcasting rule: a product exists exactly for compatible shapes. *)
Lemma np_binop_defined (f : R -> R -> R) (a b : list R) :
  (exists v, np_binop f a b = Return v)
  <-> (length a = length b \/ length a = 1%nat \/ length b = 1%nat).
Proof.
  unfold np_binop. destruct (Nat.eqb_spec (length a) (length b)) as [E | E].
  - split; [intros _; now left | intros _; eauto].
  - destruct a as [| x [| x' a]]; destruct b as [| y [| y' b]]; simpl in *;
      (split; [intros [v Hv]; first [discriminate Hv | now right; left | now right; right]
              | intros [H | [H | H]]; first [lia | eauto]]).
Qed.

Lemma length_pair_sums (y : list R) : length (pair_sums y) = (length y - 1)%nat.
Proof.
  unfold pair_sums. rewrite length_zip_with. destruct y; simpl; lia.
Qed.

Lemma np_trapz_defined (y x : list R) :
  (exists v, np_trapz y x = Return v)
  <-> (exists prod, np_mul (np_diff x) (pair_sums y) = Return prod).
Proof.
  unfold np_trapz. split.
  - intros [v Hv]. destruct (bind_inv _ _ _ Hv) as (prod & Hp & _). eauto.
  - intros [prod Hp]. rewrite Hp. simpl. eauto.
Qed.

(** Whether [np.trapz] raises depends on the length of [y] only. *)
Lemma np_trapz_defined_length (y y' x : list R) :
  length y = length y' ->
  (exists v, np_trapz y x = Return v) -> exists v', np_trapz y' x = Return v'.
Proof.
  intros E. rewrite !np_trapz_defined. unfold np_mul. rewrite !np_binop_defined.
  rewrite !length_pair_sums, E. tauto.
Qed.

Lemma zip_with_plus_scal (c : R) (a b : list R) :
  zip_with Rplus (map (Rmult c) a) (map (Rmult c) b) = map (Rmult c) (zip_with Rplus a b).
Proof.
  revert b. induction a as [| x a IH]; intros [| y b]; simpl; try reflexivity.
  rewrite IH. f_equal. lra.
Qed.

Lemma pair_sums_scal (c : R) (y : list R) :
  pair_sums (map (Rmult c) y) = map (Rmult c) (pair_sums y).
Proof.
  unfold pair_sums. rewrite <- zip_with_plus_scal. now destruct y.
Qed.

Lemma Rsum_half_scal (c : R) (l : list R) :
  Rsum (map (fun t => t / 2) (map (Rmult c) l)) = c * Rsum (map (fun t => t / 2) l).
Proof.
  rewrite <- Rsum_map_scal, !map_map. f_equal. apply map_ext. intros t. lra.
Qed.

(** The integral is linear in the integrand. *)
Lemma np_trapz_scal (c : R) (y x : list R) :
  np_trapz (map (Rmult c) y) x = Rmult c <$> np_trapz y x.
Proof.
  unfold np_trapz. rewrite pair_sums_scal, np_mul_scal_r.
  destruct (np_mul (np_diff x) (pair_sums y)) as [prod | e |]; simpl; try reflexivity.
  now rewrite Rsum_half_scal.
Qed.

Lemma np_mul_self_scal (c : R) (y : list R) :
  np_mul (map (Rmult c) y) (map (Rmult c) y)
  = Return (map (Rmult (c * c)) (map (fun x => x * x) y)).
Proof.
  rewrite np_mul_self, !map_map. f_equal. apply map_ext. intros x. lra.
Qed.

End Trapz.

(** ** The overlap family *)

Section Overlap.
Local Open Scope R_scope.

Variables dir_frequency_axis dir_intensity_axis : spectra.
Variables sample_index reference_index : Z.

(** C2.  When the sample and the reference are the same intensity sequence
    and the self-overlap integral of the reference is strictly positive,
    [double_denominator_overlap] returns 1 and [integrated_difference]
    returns 0 (exact arithmetic). *)
Theorem identical_spectra_overlap (intensity frequency : list R) (T : R) :
  py_index dir_intensity_axis sample_index = Return intensity ->
  py_index dir_intensity_axis reference_index = Return intensity ->
  py_index dir_frequency_axis reference_index = Return frequency ->
  self_overlap intensity frequency = Return T ->
  0 < T ->
  double_denominator_overlap dir_frequency_axis dir_intensity_axis
    sample_index reference_index = Return 1
  /\ integrated_difference dir_frequency_axis dir_intensity_axis
       sample_index reference_index = Return 0.
Proof.
  intros Hs Hr Hf HT Hpos. split.
  - unfold double_denominator_overlap. rewrite Hs, Hf, Hr. simpl.
    unfold self_overlap in HT. destruct (np_mul intensity intensity) as [yy | e |];
      simpl in HT; try discriminate HT.
    simpl. rewrite HT. simpl.
    rewrite np_sqrt_ok by nra. simpl. rewrite sqrt_square by lra.
    rewrite np_div_ok by lra. f_equal. field. lra.
  - unfold integrated_difference. rewrite Hs, Hf, Hr. simpl.
    rewrite self_overlap_square in HT. rewrite HT. simpl.
    rewrite np_div_ok by lra. f_equal. field. lra.
Qed.

(** C4.  Doubling the reference intensity, the sample staying as it is,
    halves [single_denominator_overlap] and leaves
    [double_denominator_overlap] unchanged, as soon as both self-overlap
    integrals are strictly positive; and on sequences of equal length both
    functions do return a value. *)
Theorem doubling_reference_intensity
    (doubled : spectra) (sample reference frequency : list R) (Tr Ts : R) :
  py_index dir_intensity_axis sample_index = Return sample ->
  py_index dir_intensity_axis reference_index = Return reference ->
  py_index dir_frequency_axis reference_index = Return frequency ->
  py_index doubled sample_index = Return sample ->
  py_index doubled reference_index = Return (map (Rmult 2) reference) ->
  self_overlap reference frequency = Return Tr -> 0 < Tr ->
  self_overlap sample frequency = Return Ts -> 0 < Ts ->
  single_denominator_overlap dir_frequency_axis doubled sample_index reference_index
  = (fun v => v / 2) <$> single_denominator_overlap dir_frequency_axis dir_intensity_axis
                           sample_index reference_index
  /\ double_denominator_overlap dir_frequency_axis doubled sample_index reference_index
     = double_denominator_overlap dir_frequency_axis dir_intensity_axis
         sample_index reference_index
  /\ (length sample = length reference ->
      exists v w,
        single_denominator_overlap dir_frequency_axis dir_intensity_axis
          sample_index reference_index = Return v
        /\ double_denominator_overlap dir_frequency_axis dir_intensity_axis
             sample_index reference_index = Return w).
Proof.
  intros Hs Hr Hf Hs' Hr' HTr Hpr HTs Hps.
  unfold self_overlap in HTr, HTs. rewrite np_mul_self in HTr, HTs.
  simpl in HTr, HTs.
  assert (Hsq : 0 < Tr * Ts) by nra.
  assert (Hrt : 0 < sqrt (Tr * Ts)) by now apply sqrt_lt_R0.
  unfold single_denominator_overlap, double_denominator_overlap.
  rewrite Hs, Hr, Hf, Hs', Hr'. simpl.
  rewrite np_mul_self_scal, !np_mul_self, np_mul_scal_l. simpl.
  rewrite np_trapz_scal, HTr, HTs. simpl.
  split; [| split].
  - destruct (np_mul reference sample) as [rs | e |]; simpl; try reflexivity.
    rewrite np_trapz_scal.
    destruct (np_trapz rs frequency) as [N | e |]; simpl; try reflexivity.
    rewrite !np_div_ok by lra. simpl. f_equal. field. lra.
  - destruct (np_mul reference sample) as [rs | e |]; simpl; try reflexivity.
    rewrite np_trapz_scal.
    destruct (np_trapz rs frequency) as [N | e |]; simpl; try reflexivity.
    replace (2 * 2 * Tr * Ts) with (2 * 2 * (Tr * Ts)) by ring.
    rewrite !np_sqrt_ok by nra. simpl.
    rewrite sqrt_mult by lra. rewrite sqrt_square by lra.
    rewrite !np_div_ok by nra. f_equal. field. lra.
  - intros Hlen.
    assert (Hrs : exists rs, np_mul reference sample = Return rs
                             /\ length rs = length reference).
    { unfold np_mul, np_binop. rewrite <- Hlen, Nat.eqb_refl.
      eexists. split; [reflexivity |]. rewrite length_zip_with. lia. }
    destruct Hrs as (rs & -> & Hlrs). simpl.
    assert (HN : exists N, np_trapz rs frequency = Return N).
    { apply (np_trapz_defined_length (map (fun x => x * x) reference)).
      - now rewrite length_map.
      - now exists Tr. }
    destruct HN as (N & ->). simpl.
    rewrite np_sqrt_ok by lra. simpl. rewrite !np_div_ok by lra. eauto.
Qed.
End Overlap.

(** ** Statistics *)

Section Statistics.
Local Open Scope R_scope.

Lemma np_average_nonempty (l : list R) : l <> [] -> np_average l = Return (mean l).
Proof. intros H. destruct l; [contradiction | reflexivity]. Qed.

Lemma INR_length_nonzero (l : list R) : l <> [] -> INR (length l) <> 0.
Proof.
  intros H. apply not_0_INR. destruct l; [contradiction | discriminate].
Qed.

Lemma sq_dev_sum_snoc (m x : R) (l : list R) :
  sq_dev_sum m (l ++ [x]) = sq_dev_sum m l + (x - m) ^ 2.
Proof.
  unfold sq_dev_sum. rewrite map_app, Rsum_app. unfold Rsum at 2. cbn [map foldr]. lra.
Qed.

Lemma sq_dev_sum_nonneg (m : R) (l : list R) : 0 <= sq_dev_sum m l.
Proof. apply Rsum_squares_nonneg. Qed.

Lemma bound_after_pos (k : nat) (numerator : R) (n : nat) :
  k <> 0%nat -> bound_after k numerator n = Some (numerator / INR n).
Proof. destruct k; [contradiction | reflexivity]. Qed.

Lemma variance_loop_prefix (sample reference : list R) (k : nat) :
  (k <= length sample)%nat -> (length sample <= length reference)%nat ->
  for_range k
    (stat_body sample reference (np_average sample) (np_average reference))
    (mk_stat 0 0 None None)
  = Return (mk_stat (sq_dev_sum (mean sample) (take k sample))
              (sq_dev_sum (mean reference) (take k reference))
              (bound_after k (sq_dev_sum (mean sample) (take k sample)) (length sample))
              (bound_after k (sq_dev_sum (mean reference) (take k reference))
                 (length reference))).
Proof.
  intros Hk Hlen. induction k as [| k IH].
  - rewrite for_range_0, !take_0. reflexivity.
  - rewrite for_range_S, IH by lia. mstep. unfold stat_body.
    assert (Hs : sample <> []) by (destruct sample; [simpl in Hk; lia | discriminate]).
    assert (Hr : reference <> [])
      by (destruct reference; [destruct sample; simpl in *; [congruence | lia] | discriminate]).
    destruct (getitem_lt sample k) as (x & Hx & ->); [lia |].
    destruct (getitem_lt reference k) as (y & Hy & ->); [lia |].
    rewrite !np_average_nonempty by assumption. mstep.
    rewrite !np_div_ok by now apply INR_length_nonzero. mstep.
    rewrite (take_S_r _ _ _ Hx), (take_S_r _ _ _ Hy), !sq_dev_sum_snoc.
    reflexivity.
Qed.

(** The value [compute_statistics] returns on a non-empty sample that is no
    longer than the reference. *)
Lemma compute_statistics_value
    (dir_intensities : spectra) (sample_index reference_index : Z)
    (sample reference : list R) :
  py_index dir_intensities sample_index = Return sample ->
  py_index dir_intensities reference_index = Return reference ->
  sample <> [] -> (length sample <= length reference)%nat ->
  let sv := population_variance sample in
  let rv := sq_dev_sum (mean reference) (take (length sample) reference)
            / INR (length reference) in
  compute_statistics dir_intensities sample_index reference_index
  = Return (Rabs (mean reference - mean sample), Rabs (rv - sv),
            Rabs (sqrt rv - sqrt sv)).
Proof.
  intros Hs Hr Hne Hlen sv rv.
  assert (Hrne : reference <> [])
    by (destruct reference; [destruct sample; simpl in *; [congruence | lia] | discriminate]).
  unfold compute_statistics. rewrite Hs, Hr. mstep.
  unfold variance_loop. rewrite variance_loop_prefix by lia. mstep.
  cbn [sample_variance reference_variance]. rewrite firstn_all.
  assert (Hpos : (0 < length sample)%nat)
    by (destruct sample; [contradiction | simpl; lia]).
  rewrite !bound_after_pos by lia. cbn [read_local]. mstep.
  fold (population_variance sample). fold sv. fold rv.
  assert (Hsv : 0 <= sv).
  { unfold sv, population_variance. apply Rmult_le_pos; [apply sq_dev_sum_nonneg |].
    apply Rlt_le, Rinv_0_lt_compat, lt_0_INR. lia. }
  assert (Hrv : 0 <= rv).
  { unfold rv. apply Rmult_le_pos; [apply sq_dev_sum_nonneg |].
    apply Rlt_le, Rinv_0_lt_compat, lt_0_INR. lia. }
  rewrite !np_sqrt_ok by assumption. mstep.
  rewrite !np_average_nonempty by assumption. reflexivity.
Qed.

(** C6.  The variance loop of [compute_statistics] runs over the indices of
    the sample, for both sides.  The sample variance it leaves is the
    population variance of the sample.  The reference numerator is the sum
    of squared deviations of the first [len(sample)] reference entries only,
    so the entries of a longer reference at or beyond [len(sample)] add
    nothing to it; the reference variance is that numerator over
    [len(reference)], the population variance when the two lengths agree.
    The returned triple is built from these two values. *)
Theorem variance_shared_loop
    (dir_intensities : spectra) (sample_index reference_index : Z)
    (sample reference : list R) :
  py_index dir_intensities sample_index = Return sample ->
  py_index dir_intensities reference_index = Return reference ->
  (length sample <= length reference)%nat ->
  exists st,
    variance_loop sample reference (np_average sample) (np_average reference) = Return st
    /\ sample_variance_numerator st = sq_dev_sum (mean sample) sample
    /\ reference_variance_numerator st
       = sq_dev_sum (mean reference) (take (length sample) reference)
    /\ (sample <> [] ->
        let sv := population_variance sample in
        let rv := reference_variance_numerator st / INR (length reference) in
        sample_variance st = Some sv
        /\ reference_variance st = Some rv
        /\ (length reference = length sample -> rv = population_variance reference)
        /\ compute_statistics dir_intensities sample_index reference_index
           = Return (Rabs (mean reference - mean sample), Rabs (rv - sv),
                     Rabs (sqrt rv - sqrt sv))).
Proof.
  intros Hs Hr Hlen. eexists. split.
  { unfold variance_loop. apply variance_loop_prefix; lia. }
  cbn [sample_variance sample_variance_numerator
         reference_variance reference_variance_numerator].
  rewrite firstn_all. split; [reflexivity |]. split; [reflexivity |].
  intros Hne.
  assert (Hpos : (0 < length sample)%nat)
    by (destruct sample; [contradiction | simpl; lia]).
  rewrite !bound_after_pos by lia.
  split; [reflexivity |]. split; [reflexivity |]. split.
  - intros E. unfold population_variance. now rewrite <- E, firstn_all.
  - now apply compute_statistics_value.
Qed.

(** C7.  On a non-empty intensity sequence compared with itself,
    [compute_statistics] returns the triple (0, 0, 0). *)
Theorem identical_statistics
    (dir_intensities : spectra) (sample_index reference_index : Z)
    (intensity : list R) :
  py_index dir_intensities sample_index = Return intensity ->
  py_index dir_intensities reference_index = Return intensity ->
  intensity <> [] ->
  compute_statistics dir_intensities sample_index reference_index = Return (0, 0, 0).
Proof.
  intros Hs Hr Hne.
  rewrite (compute_statistics_value _ _ _ intensity intensity Hs Hr Hne) by lia.
  cbv zeta. rewrite firstn_all. fold (population_variance intensity).
  rewrite !Rminus_diag, Rabs_R0. reflexivity.
Qed.
End Statistics.

(** ** [wrong_signs] *)

Section WrongSigns.
Local Open Scope R_scope.

Variables sample_frequency sample_intensity : list R.
Variables reference_frequency reference_intensity : list R.

Let body := wrong_signs_body sample_frequency sample_intensity
              reference_frequency reference_intensity.

(** The state after [k] rounds of the loop, when every sequence is as long
    as the reference frequencies, no reference intensity is zero and the
    first ratio is not zero. *)
Lemma wrong_signs_rounds (k : nat) :
  (k <= length reference_frequency)%nat ->
  (length reference_frequency <= length sample_frequency)%nat ->
  (length reference_frequency <= length sample_intensity)%nat ->
  (length reference_frequency <= length reference_intensity)%nat ->
  (forall a ri, (a < k)%nat -> reference_intensity !! a = Some ri -> ri <> 0) ->
  (forall si ri, sample_intensity !! 0%nat = Some si ->
                 reference_intensity !! 0%nat = Some ri -> si / ri <> 0) ->
  exists st,
    for_range k body (mk_sign [] [] None) = Return st
    /\ delta_freq st = take k (zip_with Rminus reference_frequency sample_frequency)
    /\ length (sign_change st) = k
    /\ sign st = sign_change st !! (k - 1)%nat
    /\ signs_follow sample_intensity reference_intensity (sign_change st) k.
Proof.
  intros Hk Hsf Hsi Hri Hnz H0. induction k as [| k IH].
  - exists (mk_sign [] [] None). rewrite for_range_0, take_0.
    repeat split; try reflexivity; intros; lia.
  - destruct IH as (st & Hrun & Hd & Hl & Hsign & Hfol);
      [lia | intros a ri Ha; apply Hnz; lia |].
    rewrite for_range_S, Hrun. mstep. unfold body, wrong_signs_body.
    destruct (getitem_lt reference_frequency k) as (x & Hx & ->); [lia |].
    destruct (getitem_lt sample_frequency k) as (y & Hy & ->); [lia |].
    destruct (getitem_lt sample_intensity k) as (si & Hsik & ->); [lia |].
    destruct (getitem_lt reference_intensity k) as (ri & Hrik & ->); [lia |].
    mstep. rewrite np_div_ok by (apply (Hnz k); [lia | exact Hrik]). mstep.
    assert (Hs : exists s, assign_sign (si / ri) (sign st) = Some s
                 /\ (0 < si / ri -> s = 1%Z) /\ (si / ri < 0 -> s = (-1)%Z)
                 /\ (si / ri = 0 -> sign_change st !! (k - 1)%nat = Some s)).
    { destruct (Req_dec_T (si / ri) 0) as [E | E].
      - rewrite E, assign_sign_zero.
        destruct k as [| k']; [exfalso; now apply (H0 si ri) |].
        destruct (lookup_lt_is_Some_2 (sign_change st) (S k' - 1)) as [s Hs]; [lia |].
        exists s. rewrite Hsign. repeat split; [exact Hs | lra | lra | auto].
      - destruct (assign_sign_nonzero (si / ri) (sign st) E) as (s & -> & Hp & Hn).
        exists s. repeat split; [exact Hp | exact Hn | contradiction]. }
    destruct Hs as (s & -> & Hp & Hn & Hz). cbn [read_local]. mstep.
    eexists. split; [reflexivity |].
    cbn [delta_freq sign_change sign].
    split; [| split; [| split]].
    + rewrite Hd. symmetry. apply take_S_r.
      rewrite lookup_zip_with, Hx, Hy. reflexivity.
    + rewrite length_app, Hl. simpl. lia.
    + replace (S k - 1)%nat with k by lia. symmetry. now apply list_lookup_middle.
    + intros a si' ri' Ha Hsa Hra.
      destruct (decide (a = k)) as [-> | Hne].
      * rewrite Hsik in Hsa. rewrite Hrik in Hra.
        injection Hsa as <-. injection Hra as <-.
        rewrite (list_lookup_middle _ _ _ k) by (symmetry; exact Hl).
        repeat split.
        -- intros H. now rewrite Hp.
        -- intros H. now rewrite Hn.
        -- intros H. rewrite lookup_app_l_Some with (x := s); auto.
      * assert (Hak : (a < k)%nat) by lia.
        destruct (Hfol a si' ri' Hak Hsa Hra) as (F1 & F2 & F3).
        rewrite !lookup_app_l by lia. auto.
Qed.
End WrongSigns.

Section WrongSignsCall.
Local Open Scope R_scope.

Variables dir_frequencies dir_intensities : spectra.
Variables sample_index reference_index : Z.
Variables sample_frequency sample_intensity : list R.
Variables reference_frequency reference_intensity : list R.

Hypothesis sample_frequency_at :
  py_index dir_frequencies sample_index = Return sample_frequency.
Hypothesis sample_intensity_at :
  py_index dir_intensities sample_index = Return sample_intensity.
Hypothesis reference_frequency_at :
  py_index dir_frequencies reference_index = Return reference_frequency.
Hypothesis reference_intensity_at :
  py_index dir_intensities reference_index = Return reference_intensity.

Lemma wrong_signs_unfold :
  wrong_signs dir_frequencies dir_intensities sample_index reference_index
  = (for_range (length reference_frequency)
       (wrong_signs_body sample_frequency sample_intensity
          reference_frequency reference_intensity)
       (mk_sign [] [] None)
     ≫= fun st => Return (delta_freq st, sign_change st)).
Proof.
  unfold wrong_signs.
  now rewrite sample_frequency_at, sample_intensity_at,
    reference_frequency_at, reference_intensity_at.
Qed.

(** A call returns when the four sequences have one length, no reference
    intensity is zero and the first ratio is not zero. *)
Lemma wrong_signs_returns :
  length sample_frequency = length reference_frequency ->
  length sample_intensity = length reference_frequency ->
  length reference_intensity = length reference_frequency ->
  (forall a ri, reference_intensity !! a = Some ri -> ri <> 0) ->
  (forall si ri, sample_intensity !! 0%nat = Some si ->
                 reference_intensity !! 0%nat = Some ri -> si / ri <> 0) ->
  exists displacement signs,
    wrong_signs dir_frequencies dir_intensities sample_index reference_index
    = Return (displacement, signs)
    /\ displacement = zip_with Rminus reference_frequency sample_frequency
    /\ length signs = length reference_frequency
    /\ signs_follow sample_intensity reference_intensity signs
         (length reference_frequency).
Proof.
  intros Hsf Hsi Hri Hnz H0.
  destruct (wrong_signs_rounds sample_frequency sample_intensity
              reference_frequency reference_intensity (length reference_frequency))
    as (st & Hrun & Hd & Hl & _ & Hfol); try lia; eauto.
  exists (delta_freq st), (sign_change st).
  rewrite wrong_signs_unfold, Hrun. mstep.
  split; [reflexivity |]. split; [| split; [lia | exact Hfol]].
  rewrite Hd. apply firstn_all2. rewrite length_zip_with. lia.
Qed.
End WrongSignsCall.

Section SignTheorems.
Local Open Scope R_scope.

Ltac run_signs :=
  repeat (first [ rewrite np_div_ok by lra
                | rewrite assign_sign_pos by lra
                | rewrite assign_sign_neg by lra ]; simpl).

(** C3.  On frequencies [[0,1,2],[0,1,2]] and intensities
    [[1,2,3],[1,-2,3]] with sample 1 and reference 0, [wrong_signs] returns
    the displacements [0,0,0] and the signs [1,-1,1].  In general, on
    sequences of one length whose intensity ratios are all defined and not
    zero, entry [a] of the first output is
    [reference_freq[a] - sample_freq[a]] and entry [a] of the second is +1
    for a positive ratio [sample_intensity[a] / reference_intensity[a]] and
    -1 for a negative one. *)
Theorem wrong_signs_entries :
  wrong_signs [[0; 1; 2]; [0; 1; 2]] [[1; 2; 3]; [1; -2; 3]] 1 0
  = Return ([0; 0; 0], [1; -1; 1]%Z)
  /\ forall (dir_frequencies dir_intensities : spectra) (sample_index reference_index : Z)
       (sample_frequency sample_intensity reference_frequency reference_intensity : list R),
      py_index dir_frequencies sample_index = Return sample_frequency ->
      py_index dir_intensities sample_index = Return sample_intensity ->
      py_index dir_frequencies reference_index = Return reference_frequency ->
      py_index dir_intensities reference_index = Return reference_intensity ->
      length sample_frequency = length reference_frequency ->
      length sample_intensity = length reference_frequency ->
      length reference_intensity = length reference_frequency ->
      (forall a si ri, sample_intensity !! a = Some si ->
                       reference_intensity !! a = Some ri -> ri <> 0 /\ si / ri <> 0) ->
      exists displacement signs,
        wrong_signs dir_frequencies dir_intensities sample_index reference_index
        = Return (displacement, signs)
        /\ length displacement = length reference_frequency
        /\ length signs = length reference_frequency
        /\ forall a rf sf si ri,
             reference_frequency !! a = Some rf -> sample_frequency !! a = Some sf ->
             sample_intensity !! a = Some si -> reference_intensity !! a = Some ri ->
             displacement !! a = Some (rf - sf)
             /\ (0 < si / ri -> signs !! a = Some 1%Z)
             /\ (si / ri < 0 -> signs !! a = Some (-1)%Z).
Proof.
  split.
  - unfold wrong_signs. simpl. unfold for_range. simpl.
    unfold wrong_signs_body. simpl. run_signs.
    do 2 f_equal. repeat (apply (f_equal2 cons); [lra |]). reflexivity.
  - intros fs ints si ri sf sI rf rI Hsf HsI Hrf HrI Lsf LsI LrI Hnz.
    destruct (wrong_signs_returns fs ints si ri sf sI rf rI Hsf HsI Hrf HrI Lsf LsI LrI)
      as (d & sg & Hrun & Hd & Hl & Hfol).
    + intros a r Hr.
      destruct (lookup_lt_is_Some_2 sI a) as [s Hs];
        [apply lookup_lt_Some in Hr; lia |].
      now destruct (Hnz a s r Hs Hr).
    + intros s r Hs Hr. now destruct (Hnz 0%nat s r Hs Hr).
    + exists d, sg. split; [exact Hrun |]. split; [| split; [exact Hl |]].
      * rewrite Hd, length_zip_with. lia.
      * intros a x y s r Hx Hy Hs Hr. split.
        -- rewrite Hd, lookup_zip_with, Hx, Hy. reflexivity.
        -- apply lookup_lt_Some in Hx.
           destruct (Hfol a s r Hx Hs Hr) as (F1 & F2 & _). now split.
Qed.

(** Over a run of zero ratios the sign entry is handed on unchanged. *)
Lemma signs_follow_stale (sample_intensity reference_intensity : list R)
    (signs : list Z) (n j a : nat) :
  signs_follow sample_intensity reference_intensity signs n ->
  (n <= length sample_intensity)%nat -> (n <= length reference_intensity)%nat ->
  (j <= a)%nat -> (a < n)%nat ->
  (forall i si ri, (j < i <= a)%nat -> sample_intensity !! i = Some si ->
                   reference_intensity !! i = Some ri -> si / ri = 0) ->
  signs !! a = signs !! j.
Proof.
  intros Hfol Hls Hlr Hja Han Hzero. induction a as [| a IH].
  - now replace j with 0%nat by lia.
  - destruct (decide (j = S a)) as [-> | Hne]; [reflexivity |].
    destruct (lookup_lt_is_Some_2 sample_intensity (S a)) as [si Hsi]; [lia |].
    destruct (lookup_lt_is_Some_2 reference_intensity (S a)) as [ri Hri]; [lia |].
    destruct (Hfol (S a) si ri Han Hsi Hri) as (_ & _ & F).
    rewrite F by (apply (Hzero (S a)); [lia | exact Hsi | exact Hri]).
    replace (S a - 1)%nat with a by lia.
    apply IH; [lia | lia |]. intros i s r Hi. apply Hzero. lia.
Qed.

(** C8.  A ratio [sample_intensity[a] / reference_intensity[a]] that is
    exactly zero assigns no sign.  At the first index the call then fails
    with [UnboundLocalError].  At a later index the sign appended is the one
    left by the most recent earlier index [j] whose ratio was not zero: the
    entry at [a] equals the entry at [j], the sign of the ratio at [j]. *)
Theorem wrong_signs_zero_ratio
    (dir_frequencies dir_intensities : spectra) (sample_index reference_index : Z)
    (sample_frequency sample_intensity reference_frequency reference_intensity : list R) :
  py_index dir_frequencies sample_index = Return sample_frequency ->
  py_index dir_intensities sample_index = Return sample_intensity ->
  py_index dir_frequencies reference_index = Return reference_frequency ->
  py_index dir_intensities reference_index = Return reference_intensity ->
  (forall rf sf si ri,
      reference_frequency !! 0%nat = Some rf -> sample_frequency !! 0%nat = Some sf ->
      sample_intensity !! 0%nat = Some si -> reference_intensity !! 0%nat = Some ri ->
      ri <> 0 -> si / ri = 0 ->
      wrong_signs dir_frequencies dir_intensities sample_index reference_index
      = Raise UnboundLocalError)
  /\ (length sample_frequency = length reference_frequency ->
      length sample_intensity = length reference_frequency ->
      length reference_intensity = length reference_frequency ->
      (forall a ri, reference_intensity !! a = Some ri -> ri <> 0) ->
      (forall si ri, sample_intensity !! 0%nat = Some si ->
                     reference_intensity !! 0%nat = Some ri -> si / ri <> 0) ->
      exists displacement signs,
        wrong_signs dir_frequencies dir_intensities sample_index reference_index
        = Return (displacement, signs)
        /\ length signs = length reference_frequency
        /\ forall j a sj rj,
             (j < a)%nat -> (a < length reference_frequency)%nat ->
             sample_intensity !! j = Some sj -> reference_intensity !! j = Some rj ->
             (forall i si ri, (j < i <= a)%nat -> sample_intensity !! i = Some si ->
                              reference_intensity !! i = Some ri -> si / ri = 0) ->
             signs !! a = signs !! j
             /\ (0 < sj / rj -> signs !! a = Some 1%Z)
             /\ (sj / rj < 0 -> signs !! a = Some (-1)%Z)).
Proof.
  intros Hsf HsI Hrf HrI. split.
  - intros rf sf si ri Hx Hy Hs Hr Hnz Hz.
    rewrite (wrong_signs_unfold _ _ _ _ _ _ _ _ Hsf HsI Hrf HrI).
    destruct reference_frequency as [| x rest]; [discriminate Hx |].
    assert (Hfirst : wrong_signs_body sample_frequency sample_intensity (x :: rest)
                       reference_intensity 0 (mk_sign [] [] None)
                     = Raise UnboundLocalError).
    { unfold wrong_signs_body.
      rewrite (getitem_Some _ _ _ Hx), (getitem_Some _ _ _ Hy),
        (getitem_Some _ _ _ Hs), (getitem_Some _ _ _ Hr).
      mstep. rewrite np_div_ok by exact Hnz. mstep.
      rewrite Hz, assign_sign_zero. reflexivity. }
    unfold for_range. cbn [length seq for_each]. rewrite Hfirst. reflexivity.
  - intros Lsf LsI LrI Hnz H0.
    destruct (wrong_signs_returns _ _ _ _ _ _ _ _ Hsf HsI Hrf HrI Lsf LsI LrI Hnz H0)
      as (d & sg & Hrun & _ & Hl & Hfol).
    exists d, sg. split; [exact Hrun |]. split; [exact Hl |].
    intros j a sj rj Hja Ha Hsj Hrj Hzero.
    assert (E : sg !! a = sg !! j).
    { apply (signs_follow_stale sample_intensity reference_intensity sg
               (length reference_frequency)); try lia; assumption. }
    destruct (Hfol j sj rj) as (F1 & F2 & _); [lia | assumption | assumption |].
    rewrite E. auto.
Qed.
End SignTheorems.

(** ** [normal_mode_reordering] *)

Section Reordering.
Local Open Scope R_scope.

Lemma slope_Some (frequency intensity : list R) (a : nat) (v : R) :
  slope frequency intensity a = Some v ->
  exists f0 f1 i0 i1,
    frequency !! a = Some f0 /\ frequency !! (a + 1)%nat = Some f1
    /\ intensity !! a = Some i0 /\ intensity !! (a + 1)%nat = Some i1
    /\ f1 - f0 <> 0 /\ v = (i1 - i0) / (f1 - f0).
Proof.
  unfold slope. intros H.
  destruct (frequency !! a) as [f0 |]; [| discriminate H].
  destruct (frequency !! (a + 1)%nat) as [f1 |]; [| discriminate H].
  destruct (intensity !! a) as [i0 |]; [| discriminate H].
  destruct (intensity !! (a + 1)%nat) as [i1 |]; [| discriminate H].
  simpl in H. destruct (Req_dec_T (f1 - f0) 0) as [E | E]; [discriminate H |].
  injection H as <-. exists f0, f1, i0, i1. auto 10.
Qed.

Lemma slope_ratio_Some (sf sI rf rI : list R) (a : nat) (q : R) :
  slope_ratio sf sI rf rI a = Some q ->
  exists s r, slope sf sI a = Some s /\ slope rf rI a = Some r /\ r <> 0 /\ q = s / r.
Proof.
  unfold slope_ratio. intros H.
  destruct (slope sf sI a) as [s |]; [| discriminate H].
  destruct (slope rf rI a) as [r |]; [| discriminate H].
  simpl in H. destruct (Req_dec_T r 0) as [E | E]; [discriminate H |].
  injection H as <-. exists s, r. auto.
Qed.

(** The difference quotient as the code writes it, [x[a] - x[a+1]] on both
    sides, is the slope. *)
Lemma backward_quotient (f0 f1 i0 i1 : R) :
  f1 - f0 <> 0 -> (i0 - i1) / (f0 - f1) = (i1 - i0) / (f1 - f0).
Proof. intros H. field. split; lra. Qed.

Variables sample_frequency sample_intensity : list R.
Variables reference_frequency reference_intensity : list R.

Let body := reordering_body sample_frequency sample_intensity
              reference_frequency reference_intensity.
Let ratio := slope_ratio sample_frequency sample_intensity
               reference_frequency reference_intensity.

(** The state after [k] rounds, all of them before the last index. *)
Lemma reordering_rounds (k : nat) :
  (k <= length reference_frequency - 1)%nat ->
  (forall a, (a < k)%nat -> exists q, ratio a = Some q /\ q <> 0) ->
  exists st,
    for_range k body (mk_slope [] None) = Return st
    /\ length (slope_sign st) = k
    /\ forall a q, (a < k)%nat -> ratio a = Some q ->
         (0 < q -> slope_sign st !! a = Some 1%Z)
         /\ (q < 0 -> slope_sign st !! a = Some (-1)%Z).
Proof.
  intros Hk Hq. induction k as [| k IH].
  - exists (mk_slope [] None). rewrite for_range_0.
    repeat split; try reflexivity; intros; lia.
  - destruct IH as (st & Hrun & Hl & Hent); [lia | intros a Ha; apply Hq; lia |].
    rewrite for_range_S, Hrun. mstep. unfold body, reordering_body.
    destruct (Nat.eqb_spec k (length reference_frequency - 1)) as [E | _]; [lia |].
    destruct (Hq k) as (q & Hqk & Hq0); [lia |].
    destruct (slope_ratio_Some _ _ _ _ _ _ Hqk) as (s & r & Hs & Hr & Hr0 & ->).
    destruct (slope_Some _ _ _ _ Hs) as (sf0 & sf1 & si0 & si1 & A1 & A2 & A3 & A4 & A5 & ->).
    destruct (slope_Some _ _ _ _ Hr) as (rf0 & rf1 & ri0 & ri1 & B1 & B2 & B3 & B4 & B5 & ->).
    rewrite (getitem_Some _ _ _ A1), (getitem_Some _ _ _ A2), (getitem_Some _ _ _ A3),
      (getitem_Some _ _ _ A4), (getitem_Some _ _ _ B1), (getitem_Some _ _ _ B2),
      (getitem_Some _ _ _ B3), (getitem_Some _ _ _ B4).
    mstep. rewrite !np_div_ok by lra. mstep.
    rewrite (backward_quotient sf0 sf1 si0 si1), (backward_quotient rf0 rf1 ri0 ri1)
      by assumption.
    rewrite np_div_ok by exact Hr0. mstep.
    set (q := (si1 - si0) / (sf1 - sf0) / ((ri1 - ri0) / (rf1 - rf0))) in *.
    destruct (assign_sign_nonzero q (slope_local_sign st) Hq0) as (z & -> & Hp & Hn).
    cbn [read_local]. mstep. eexists. split; [reflexivity |].
    cbn [slope_sign]. split.
    + rewrite length_app, Hl. simpl. lia.
    + intros a q' Ha Hq'. destruct (decide (a = k)) as [-> | Hne].
      * rewrite Hqk in Hq'. injection Hq' as <-.
        rewrite (list_lookup_middle _ _ _ k) by (symmetry; exact Hl).
        split; intros H; [now rewrite Hp | now rewrite Hn].
      * rewrite lookup_app_l by lia. apply Hent; [lia | exact Hq'].
Qed.
End Reordering.

Section ReorderingCall.
Local Open Scope R_scope.

Variables dir_frequencies dir_intensities : spectra.
Variables sample_index reference_index : Z.
Variables sample_frequency sample_intensity : list R.
Variables reference_frequency reference_intensity : list R.

Hypothesis sample_frequency_at :
  py_index dir_frequencies sample_index = Return sample_frequency.
Hypothesis sample_intensity_at :
  py_index dir_intensities sample_index = Return sample_intensity.
Hypothesis reference_frequency_at :
  py_index dir_frequencies reference_index = Return reference_frequency.
Hypothesis reference_intensity_at :
  py_index dir_intensities reference_index = Return reference_intensity.

Lemma normal_mode_reordering_unfold :
  normal_mode_reordering dir_frequencies dir_intensities sample_index reference_index
  = (for_range (length reference_frequency)
       (reordering_body sample_frequency sample_intensity
          reference_frequency reference_intensity)
       (mk_slope [] None)
     ≫= fun st => Return (slope_sign st)).
Proof.
  unfold normal_mode_reordering.
  now rewrite sample_frequency_at, sample_intensity_at,
    reference_frequency_at, reference_intensity_at.
Qed.

(** C5.  On non-empty sequences of one length, with every consecutive
    frequency difference and every slope ratio defined and not zero,
    [normal_mode_reordering] returns a sequence as long as the reference
    frequencies whose last entry is the sentinel 0 and whose entry at every
    other index [a] is +1 or -1, the sign of the sample slope over
    [(a, a+1)] divided by the reference slope over [(a, a+1)]. *)
Theorem reordering_sentinel_and_signs :
  reference_frequency <> [] ->
  length sample_frequency = length reference_frequency ->
  length sample_intensity = length reference_frequency ->
  length reference_intensity = length reference_frequency ->
  (forall a, (a + 1 < length reference_frequency)%nat ->
     exists q, slope_ratio sample_frequency sample_intensity
                 reference_frequency reference_intensity a = Some q /\ q <> 0) ->
  exists slopes,
    normal_mode_reordering dir_frequencies dir_intensities sample_index reference_index
    = Return slopes
    /\ length slopes = length reference_frequency
    /\ slopes !! (length reference_frequency - 1)%nat = Some 0%Z
    /\ forall a q,
         (a + 1 < length reference_frequency)%nat ->
         slope_ratio sample_frequency sample_intensity
           reference_frequency reference_intensity a = Some q ->
         (0 < q -> slopes !! a = Some 1%Z) /\ (q < 0 -> slopes !! a = Some (-1)%Z).
Proof.
  intros Hne _ _ _ Hq.
  assert (Hn : (0 < length reference_frequency)%nat)
    by (destruct reference_frequency; [contradiction | simpl; lia]).
  destruct (reordering_rounds sample_frequency sample_intensity reference_frequency
              reference_intensity (length reference_frequency - 1))
    as (st & Hrun & Hl & Hent); [lia | intros a Ha; apply Hq; lia |].
  assert (Hfull : for_range (length reference_frequency)
                    (reordering_body sample_frequency sample_intensity
                       reference_frequency reference_intensity)
                    (mk_slope [] None)
                  = Return (mk_slope (slope_sign st ++ [0%Z]) (slope_local_sign st))).
  { replace (length reference_frequency)
      with (S (length reference_frequency - 1)) at 1 by lia.
    rewrite for_range_S, Hrun. mstep. unfold reordering_body.
    now rewrite Nat.eqb_refl. }
  rewrite normal_mode_reordering_unfold, Hfull. mstep. cbn [slope_sign].
  eexists. split; [reflexivity |]. split; [| split].
  - rewrite length_app, Hl. simpl. lia.
  - now apply list_lookup_middle.
  - intros a q Ha Hqa. rewrite lookup_app_l by lia. apply Hent; [lia | exact Hqa].
Qed.
End ReorderingCall.

(** C10.  When the reference frequency sequence has exactly one element,
    [normal_mode_reordering] returns [[0]] whatever the sample sequences
    (and the reference intensities) hold: they are never indexed. *)
Theorem reordering_single_reference
    (dir_frequencies dir_intensities : spectra) (sample_index reference_index : Z)
    (sample_frequency sample_intensity reference_intensity : list R) (f : R) :
  py_index dir_frequencies sample_index = Return sample_frequency ->
  py_index dir_intensities sample_index = Return sample_intensity ->
  py_index dir_frequencies reference_index = Return [f] ->
  py_index dir_intensities reference_index = Return reference_intensity ->
  normal_mode_reordering dir_frequencies dir_intensities sample_index reference_index
  = Return [0%Z].
Proof.
  intros Hsf Hsi Hrf Hri.
  rewrite (normal_mode_reordering_unfold _ _ _ _ _ _ _ _ Hsf Hsi Hrf Hri).
  reflexivity.
Qed.

(** ** [opt_rot_averaging] *)

Section Averaging.
Local Open Scope R_scope.

Variable dir_intensities : spectra.
Variable molecule_MM : R.

Lemma channel_body_divisor (p5 : pyobj) (a d b c : nat) (averages row : list R)
    (x count : R) :
  getitem dir_intensities a = Return row ->
  row !! (d * b + c)%nat = Some x ->
  py_float p5 = Return count ->
  channel_body dir_intensities p5 molecule_MM a d b c averages
  = (py_truediv x (divisor count molecule_MM) ≫= fun q => add_at c q averages).
Proof.
  intros Hrow Hx Hcount. unfold channel_body, divisor.
  rewrite Hrow. mstep. rewrite (getitem_Some _ _ _ Hx). mstep. rewrite Hcount. mstep.
  now destruct (Req_dec_T molecule_MM 0).
Qed.

(** One block: every channel [c] gains [row[d*b + c] / divisor]. *)
Lemma block_rounds (p5 : pyobj) (a d b k : nat) (averages row : list R) (count : R) :
  getitem dir_intensities a = Return row ->
  py_float p5 = Return count ->
  divisor count molecule_MM <> 0 ->
  (k <= length averages)%nat ->
  (forall c, (c < k)%nat -> (d * b + c < length row)%nat) ->
  exists averages',
    for_range k (channel_body dir_intensities p5 molecule_MM a d b) averages
    = Return averages'
    /\ length averages' = length averages
    /\ forall c old, averages !! c = Some old ->
         averages' !! c
         = Some (if (c <? k)%nat
                 then old + nth (d * b + c) row 0 / divisor count molecule_MM
                 else old).
Proof.
  intros Hrow Hcount Hdiv Hk Hin. induction k as [| k IH].
  - exists averages. rewrite for_range_0. repeat split. intros c old ->. reflexivity.
  - destruct IH as (av & Hrun & Hl & Hav); [lia | intros c Hc; apply Hin; lia |].
    destruct (lookup_lt_is_Some_2 row (d * b + k)) as [x Hx]; [apply Hin; lia |].
    destruct (lookup_lt_is_Some_2 averages k) as [old Hold]; [lia |].
    rewrite for_range_S, Hrun. mstep.
    rewrite (channel_body_divisor p5 a d b k av row x count Hrow Hx Hcount).
    rewrite py_truediv_ok by exact Hdiv. mstep. unfold add_at.
    assert (Hk' := Hav k old Hold).
    rewrite Nat.ltb_irrefl in Hk'.
    rewrite (getitem_Some _ _ _ Hk'). mstep.
    eexists. split; [reflexivity |]. split; [now rewrite length_insert |].
    intros c old' Hc. destruct (decide (c = k)) as [-> | Hne].
    + rewrite list_lookup_insert_eq by lia.
      rewrite Hold in Hc. injection Hc as <-.
      replace (k <? S k)%nat with true by (symmetry; apply Nat.ltb_lt; lia).
      now rewrite (nth_lookup_Some _ _ 0 _ Hx).
    + rewrite list_lookup_insert_ne by congruence. rewrite (Hav c old' Hc).
      f_equal. destruct (Nat.ltb_spec c k), (Nat.ltb_spec c (S k)); try lia; reflexivity.
Qed.

(** The sum a channel has gathered after [k] blocks read with stride [d]. *)
Lemma strided_sum_S (row : list R) (d c k : nat) (div : R) :
  strided_sum row d c (S k) div = strided_sum row d c k div + nth (d * k + c) row 0 / div.
Proof.
  unfold strided_sum. rewrite seq_S, map_app, Rsum_app. unfold Rsum at 2.
  cbn [map foldr]. simpl. lra.
Qed.

(** All blocks of one molecule. *)
Lemma molecule_rounds (p5 : pyobj) (a d channels k : nat) (row : list R) (count : R) :
  getitem dir_intensities a = Return row ->
  py_float p5 = Return count ->
  (k <> 0%nat -> divisor count molecule_MM <> 0) ->
  (forall b c, (b < k)%nat -> (c < channels)%nat -> (d * b + c < length row)%nat) ->
  exists averages,
    for_range k
      (fun b => for_range channels (channel_body dir_intensities p5 molecule_MM a d b))
      (replicate channels 0)
    = Return averages
    /\ length averages = channels
    /\ forall c, (c < channels)%nat ->
         averages !! c = Some (strided_sum row d c k (divisor count molecule_MM)).
Proof.
  intros Hrow Hcount Hdiv Hin. induction k as [| k IH].
  - exists (replicate channels 0). rewrite for_range_0, length_replicate.
    repeat split. intros c Hc. now rewrite lookup_replicate_2.
  - destruct IH as (av & Hrun & Hl & Hav);
      [intros Hk; apply Hdiv; lia | intros b c Hb Hc; apply Hin; lia |].
    rewrite for_range_S, Hrun. mstep.
    destruct (block_rounds p5 a d k channels av row count Hrow Hcount)
      as (av' & Hrun' & Hl' & Hav'); [apply Hdiv; lia | lia | intros c Hc; apply Hin; lia |].
    exists av'. split; [exact Hrun' |]. split; [lia |].
    intros c Hc. rewrite (Hav' c _ (Hav c Hc)).
    replace (c <? channels)%nat with true by (symmetry; apply Nat.ltb_lt; lia).
    now rewrite strided_sum_S.
Qed.

Lemma divisor_nonzero (count : Z) :
  (0 < count)%Z -> divisor (IZR count) molecule_MM <> 0.
Proof.
  intros H. apply IZR_lt in H. unfold divisor.
  destruct (Req_dec_T molecule_MM 0) as [E | E]; [lra |].
  apply Rmult_integral_contrapositive_currified; [lra | exact E].
Qed.

(** One molecule.  The entry at index 5 is a string [s] that [int] reads as
    [count]; the blocks are read with stride [len(s)], whatever the number
    of channels is. *)
Lemma molecule_averages_stride (dir_parameters : list (list pyobj)) (a : nat)
    (params : list pyobj) (s : string) (p6 : pyobj) (channels : nat) (count : Z)
    (row : list R) :
  dir_parameters !! a = Some params ->
  params !! 5%nat = Some (PyStr s) ->
  params !! 6%nat = Some p6 ->
  py_len p6 = Return channels ->
  parse_int s = Some count ->
  dir_intensities !! a = Some row ->
  (forall b c, (b < Z.to_nat count)%nat -> (c < channels)%nat ->
               (String.length s * b + c < length row)%nat) ->
  exists averages,
    molecule_averages dir_intensities dir_parameters molecule_MM a = Return averages
    /\ length averages = channels
    /\ forall c, (c < channels)%nat ->
         averages !! c
         = Some (strided_sum row (String.length s) c (Z.to_nat count)
                   (divisor (IZR count) molecule_MM)).
Proof.
  intros Hparams H5 H6 Hlen Hint Hrow Hin. unfold molecule_averages.
  rewrite (getitem_Some _ _ _ Hparams). mstep.
  rewrite (getitem_Some _ _ _ H6). mstep. rewrite Hlen. mstep.
  rewrite (getitem_Some _ _ _ H5). mstep. cbn [py_len py_int]. mstep.
  rewrite Hint. mstep.
  apply (molecule_rounds (PyStr s) a (String.length s) channels (Z.to_nat count)
           row (IZR count)).
  - now apply getitem_Some.
  - cbn [py_float]. now rewrite Hint.
  - intros Hk. apply divisor_nonzero. lia.
  - exact Hin.
Qed.

(** When the string at index 5 is as long as the sequence at index 6 the
    stride is the block size, and channel [c] is the sum over the blocks of
    [row[channels*b + c]], each divided by the count (and the molar mass). *)
Lemma molecule_averages_block (dir_parameters : list (list pyobj)) (a : nat)
    (params : list pyobj) (s : string) (p6 : pyobj) (channels : nat) (count : Z)
    (row : list R) :
  dir_parameters !! a = Some params ->
  params !! 5%nat = Some (PyStr s) ->
  params !! 6%nat = Some p6 ->
  py_len p6 = Return channels ->
  parse_int s = Some count ->
  dir_intensities !! a = Some row ->
  String.length s = channels ->
  (Z.to_nat count * channels <= length row)%nat ->
  exists averages,
    molecule_averages dir_intensities dir_parameters molecule_MM a = Return averages
    /\ length averages = channels
    /\ forall c, (c < channels)%nat ->
         averages !! c
         = Some (strided_sum row channels c (Z.to_nat count)
                   (divisor (IZR count) molecule_MM)).
Proof.
  intros Hparams H5 H6 Hlen Hint Hrow Hd Hsize. subst channels.
  apply (molecule_averages_stride dir_parameters a params s p6 (String.length s) count row);
    try assumption.
  intros b c Hb Hc. nia.
Qed.
End Averaging.

(** The result is the concatenation of the molecules' averages, in order. *)
Lemma opt_rot_averaging_concat {A : Type} (dir_intensities : spectra)
    (dir_parameters : list (list pyobj)) (dir_list : list A) (molecule_MM : R)
    (per_molecule : nat -> list R) :
  (forall a, (a < length dir_list)%nat ->
     molecule_averages dir_intensities dir_parameters molecule_MM a
     = Return (per_molecule a)) ->
  opt_rot_averaging dir_intensities dir_parameters dir_list molecule_MM
  = Return (concat (map per_molecule (seq 0 (length dir_list)))).
Proof.
  unfold opt_rot_averaging. generalize (length dir_list) as n.
  induction n as [| n IH]; intros H; [reflexivity |].
  rewrite for_range_S, IH by (intros a Ha; apply H; lia). mstep.
  rewrite H by lia. mstep.
  now rewrite seq_S, map_app, concat_app; cbn [map concat]; rewrite app_nil_r.
Qed.

(** Runs [opt_rot_averaging] on literal arguments up to the real arithmetic. *)
Ltac eval_average :=
  unfold opt_rot_averaging, for_range; simpl;
  unfold molecule_averages, for_range; simpl;
  unfold channel_body; simpl;
  repeat match goal with
         | |- context [IZR (10 * ?a + Z.of_nat ?n)] =>
             let z := eval compute in (10 * a + Z.of_nat n)%Z in
             change (10 * a + Z.of_nat n)%Z with z
         end;
  match goal with
  | |- context [Req_dec_T ?x 0%R] => destruct (Req_dec_T x 0%R); [try lra | try lra]
  end;
  rewrite ?py_truediv_ok by lra; simpl; unfold add_at; simpl.

(** X26.  A call on one molecule whose entry 5 is a string [s] that [int]
    reads as [count]: channel [c] of the result is the sum, over the blocks
    [b < count], of [intensities[0][len(s)*b + c]], each divided by the
    count (times the molar mass when that is not zero).  The stride is the
    length of the string, whatever the number of channels. *)
Lemma opt_rot_averaging_one_molecule {A : Type} (molecule : A) (row : list R)
    (params : list pyobj) (s : string) (p6 : pyobj) (channels : nat) (count : Z)
    (molecule_MM : R) :
  params !! 5%nat = Some (PyStr s) ->
  params !! 6%nat = Some p6 ->
  py_len p6 = Return channels ->
  parse_int s = Some count ->
  (forall b c, (b < Z.to_nat count)%nat -> (c < channels)%nat ->
               (String.length s * b + c < length row)%nat) ->
  exists averages,
    opt_rot_averaging [row] [params] [molecule] molecule_MM = Return averages
    /\ length averages = channels
    /\ forall c, (c < channels)%nat ->
         averages !! c
         = Some (strided_sum row (String.length s) c (Z.to_nat count)
                   (divisor (IZR count) molecule_MM)).
Proof.
  intros H5 H6 Hlen Hint Hin.
  destruct (molecule_averages_stride [row] molecule_MM [params] 0 params s p6
              channels count row) as (averages & Hrun & Hl & Hav); try assumption;
    try reflexivity.
  exists averages. split; [| split; assumption].
  rewrite (opt_rot_averaging_concat [row] [params] [molecule] molecule_MM
             (fun _ => averages)).
  - cbn [length seq map concat]. now rewrite app_nil_r.
  - intros a Ha. cbn [length] in Ha. now replace a with 0%nat by lia.
Qed.

Section AveragingTheorems.
Local Open Scope R_scope.

Ltac run_average :=
  eval_average;
  apply (f_equal Return); repeat (apply (f_equal2 cons); [lra |]); reflexivity.

(** C1.  With the repeat count given as the string ["2"], two channels and
    intensities [[1,2,3,4]], [opt_rot_averaging] reads block [b] at
    [intensities[a][1*b + c]], 1 being the length of the string, and returns
    [[1.5, 2.5]] for molar mass 0 and [[0.75, 1.25]] for molar mass 2, not
    the block averages [[2.0, 3.0]] and [[1.0, 1.5]]. *)
Theorem opt_rot_averaging_string_stride :
  opt_rot_averaging [[1; 2; 3; 4]]
    [parameter_row "2" [PyNum 589; PyNum 355]] [tt] 0
  = Return [3 / 2; 5 / 2]
  /\ opt_rot_averaging [[1; 2; 3; 4]]
       [parameter_row "2" [PyNum 589; PyNum 355]] [tt] 2
     = Return [3 / 4; 5 / 4]
  /\ opt_rot_averaging [[1; 2; 3; 4]]
       [parameter_row "2" [PyNum 589; PyNum 355]] [tt] 0
     <> Return [2; 3]
  /\ opt_rot_averaging [[1; 2; 3; 4]]
       [parameter_row "2" [PyNum 589; PyNum 355]] [tt] 2
     <> Return [1; 3 / 2].
Proof.
  assert (H0 : opt_rot_averaging [[1; 2; 3; 4]]
                 [parameter_row "2" [PyNum 589; PyNum 355]] [tt] 0
               = Return [3 / 2; 5 / 2]) by run_average.
  assert (H2 : opt_rot_averaging [[1; 2; 3; 4]]
                 [parameter_row "2" [PyNum 589; PyNum 355]] [tt] 2
               = Return [3 / 4; 5 / 4]) by run_average.
  split; [exact H0 |]. split; [exact H2 |]. rewrite H0, H2.
  split; intros E; injection E as E1 E2; lra.
Qed.
End AveragingTheorems.

(** C9.  [opt_rot_averaging] uses the molecule list for its length only:
    two lists of one length, of any elements, give the same result on the
    same intensities, parameters and molar mass. *)
Theorem opt_rot_averaging_list_length {A B : Type}
    (dir_intensities : spectra) (dir_parameters : list (list pyobj))
    (dir_list : list A) (dir_list' : list B) (molecule_MM : R) :
  length dir_list = length dir_list' ->
  opt_rot_averaging dir_intensities dir_parameters dir_list molecule_MM
  = opt_rot_averaging dir_intensities dir_parameters dir_list' molecule_MM.
Proof.
  intros H. unfold opt_rot_averaging. now rewrite H.
Qed.

(** * Concrete runs *)

Section Runs.
Local Open Scope R_scope.

Ltac nonzero := repeat apply Rdiv_nonzero; lra.

Ltac decide_zero :=
  repeat match goal with
         | |- context [Req_dec_T ?x 0] =>
             let E := fresh "E" in
             destruct (Req_dec_T x 0) as [E | E];
             [exfalso; assert (x <> 0) by nonzero; contradiction |]; simpl
         end.

Lemma identical_spectra_overlap_witness :
  double_denominator_overlap [[0; 1; 2]; [0; 1; 2]] [[1; 2; 3]; [1; 2; 3]] 1 0 = Return 1
  /\ integrated_difference [[0; 1; 2]; [0; 1; 2]] [[1; 2; 3]; [1; 2; 3]] 1 0 = Return 0.
Proof.
  apply (identical_spectra_overlap [[0; 1; 2]; [0; 1; 2]] [[1; 2; 3]; [1; 2; 3]] 1 0
           [1; 2; 3] [0; 1; 2] 9); try reflexivity.
  - unfold self_overlap. simpl. apply (f_equal Return). unfold Rsum. simpl. lra.
  - lra.
Defined.

Lemma doubling_reference_intensity_witness :
  single_denominator_overlap [[0; 1]; [0; 1]] [[2 * 1; 2 * 3]; [2; 1]] 1 0
  = (fun v => v / 2) <$> single_denominator_overlap [[0; 1]; [0; 1]] [[1; 3]; [2; 1]] 1 0
  /\ double_denominator_overlap [[0; 1]; [0; 1]] [[2 * 1; 2 * 3]; [2; 1]] 1 0
     = double_denominator_overlap [[0; 1]; [0; 1]] [[1; 3]; [2; 1]] 1 0
  /\ exists v w,
       single_denominator_overlap [[0; 1]; [0; 1]] [[1; 3]; [2; 1]] 1 0 = Return v
       /\ double_denominator_overlap [[0; 1]; [0; 1]] [[1; 3]; [2; 1]] 1 0 = Return w.
Proof.
  destruct (doubling_reference_intensity [[0; 1]; [0; 1]] [[1; 3]; [2; 1]] 1 0
              [[2 * 1; 2 * 3]; [2; 1]] [2; 1] [1; 3] [0; 1] 5 (5 / 2))
    as (H1 & H2 & H3); try reflexivity; try lra.
  - unfold self_overlap. simpl. apply (f_equal Return). unfold Rsum. simpl. lra.
  - unfold self_overlap. simpl. apply (f_equal Return). unfold Rsum. simpl. lra.
  - split; [exact H1 |]. split; [exact H2 |]. now apply H3.
Defined.

Lemma variance_shared_loop_witness :
  exists st,
    variance_loop [1; 2] [1; 2; 6] (np_average [1; 2]) (np_average [1; 2; 6]) = Return st
    /\ reference_variance_numerator st = sq_dev_sum (mean [1; 2; 6]) [1; 2]
    /\ reference_variance st
       = Some (sq_dev_sum (mean [1; 2; 6]) [1; 2] / INR (length [1; 2; 6])).
Proof.
  destruct (variance_shared_loop [[1; 2]; [1; 2; 6]] 0 1 [1; 2] [1; 2; 6])
    as (st & H1 & _ & H3 & H4); [reflexivity | reflexivity | simpl; lia |].
  exists st. split; [exact H1 |]. split; [exact H3 |].
  destruct H4 as (_ & H5 & _); [discriminate |].
  rewrite H5. cbv zeta. now rewrite H3.
Defined.

Lemma identical_statistics_witness :
  compute_statistics [[1; 2; 3]; [1; 2; 3]] 1 0 = Return (0, 0, 0).
Proof.
  apply (identical_statistics [[1; 2; 3]; [1; 2; 3]] 1 0 [1; 2; 3]);
    [reflexivity | reflexivity | discriminate].
Defined.

Lemma wrong_signs_entries_witness :
  exists displacement signs,
    wrong_signs [[0; 1; 2]; [0; 2; 3]] [[1; 2; 3]; [2; -2; 3]] 1 0
    = Return (displacement, signs)
    /\ displacement !! 1%nat = Some (1 - 2)
    /\ signs !! 0%nat = Some 1%Z
    /\ signs !! 1%nat = Some (-1)%Z.
Proof.
  destruct (proj2 wrong_signs_entries [[0; 1; 2]; [0; 2; 3]] [[1; 2; 3]; [2; -2; 3]]
              1%Z 0%Z [0; 2; 3] [2; -2; 3] [0; 1; 2] [1; 2; 3])
    as (d & s & Hrun & _ & _ & Hent); try reflexivity.
  - intros [| [| [| a]]] si ri Hs Hr; simpl in Hs, Hr;
      try discriminate Hs; injection Hs as <-; injection Hr as <-;
      (split; [lra | nonzero]).
  - exists d, s. split; [exact Hrun |].
    destruct (Hent 1%nat 1 2 (-2) 2) as (D1 & _ & S1); try reflexivity.
    destruct (Hent 0%nat 0 0 2 1) as (_ & S0 & _); try reflexivity.
    split; [exact D1 |]. split; [apply S0; lra | apply S1; lra].
Defined.

Lemma wrong_signs_zero_ratio_witness :
  wrong_signs [[0; 1]; [0; 1]] [[1; 2]; [0; 2]] 1 0 = Raise UnboundLocalError
  /\ exists displacement signs,
       wrong_signs [[0; 1; 2]; [0; 1; 2]] [[1; 2; 3]; [-1; 0; 0]] 1 0
       = Return (displacement, signs)
       /\ signs !! 2%nat = signs !! 0%nat
       /\ signs !! 2%nat = Some (-1)%Z.
Proof.
  split.
  - apply (proj1 (wrong_signs_zero_ratio [[0; 1]; [0; 1]] [[1; 2]; [0; 2]] 1 0
                    [0; 1] [0; 2] [0; 1] [1; 2] eq_refl eq_refl eq_refl eq_refl)
             0 0 0 1); try reflexivity; lra.
  - destruct (proj2 (wrong_signs_zero_ratio [[0; 1; 2]; [0; 1; 2]] [[1; 2; 3]; [-1; 0; 0]]
                       1 0 [0; 1; 2] [-1; 0; 0] [0; 1; 2] [1; 2; 3]
                       eq_refl eq_refl eq_refl eq_refl))
      as (d & s & Hrun & _ & Hstale); try reflexivity.
    + intros [| [| [| a]]] ri Hr; simpl in Hr; try discriminate Hr;
        injection Hr as <-; lra.
    + intros si ri Hs Hr. simpl in Hs, Hr. injection Hs as <-. injection Hr as <-. lra.
    + exists d, s. split; [exact Hrun |].
      destruct (Hstale 0%nat 2%nat (-1) 1) as (E & _ & N);
        try reflexivity; try (simpl; lia).
      * intros [| [| [| i]]] si ri Hi Hs Hr; simpl in Hs, Hr; try lia;
          injection Hs as <-; injection Hr as <-; lra.
      * split; [exact E | apply N; lra].
Defined.

Lemma reordering_sentinel_and_signs_witness :
  exists slopes,
    normal_mode_reordering [[0; 1; 2]; [0; 1; 2]] [[1; 2; 4]; [1; 3; 2]] 1 0 = Return slopes
    /\ length slopes = 3%nat
    /\ slopes !! 2%nat = Some 0%Z.
Proof.
  destruct (reordering_sentinel_and_signs [[0; 1; 2]; [0; 1; 2]] [[1; 2; 4]; [1; 3; 2]] 1 0
              [0; 1; 2] [1; 3; 2] [0; 1; 2] [1; 2; 4] eq_refl eq_refl eq_refl eq_refl)
    as (slopes & Hrun & Hlen & Hlast & _);
    [discriminate | reflexivity | reflexivity | reflexivity | |].
  - intros a Ha. destruct a as [| [| a]]; [| | simpl in Ha; lia];
      unfold slope_ratio, slope; simpl; decide_zero;
      (eexists; split; [reflexivity | nonzero]).
  - exists slopes. auto.
Defined.

Lemma reordering_single_reference_witness :
  normal_mode_reordering [[5]; []] [[1]; [7; 8; 9]] 1 0 = Return [0%Z].
Proof.
  apply (reordering_single_reference [[5]; []] [[1]; [7; 8; 9]] 1 0 [] [7; 8; 9] [1] 5);
    reflexivity.
Defined.

Lemma opt_rot_averaging_list_length_witness :
  opt_rot_averaging [[1; 2; 3; 4]] [parameter_row "2" [PyNum 589; PyNum 355]] [tt] 0
  = opt_rot_averaging [[1; 2; 3; 4]] [parameter_row "2" [PyNum 589; PyNum 355]] [true] 0.
Proof.
  apply (opt_rot_averaging_list_length [[1; 2; 3; 4]]
           [parameter_row "2" [PyNum 589; PyNum 355]] [tt] [true] 0).
  reflexivity.
Defined.


(** An empty sample leaves [sample_variance] unbound. *)
Example compute_statistics_empty_sample :
  compute_statistics [[]; [1; 2]] 0 1 = Raise UnboundLocalError.
Proof. reflexivity. Qed.

(** A reference shorter than the sample is indexed past its end. *)
Example compute_statistics_short_reference :
  compute_statistics [[1; 2]; [1]] 0 1 = Raise IndexError.
Proof.
  unfold compute_statistics. simpl. unfold variance_loop, for_range. simpl.
  unfold stat_body. simpl.
  rewrite !np_div_ok by lra. simpl. now rewrite np_div_ok by lra.
Qed.

(** A negative index counts from the end of the collection. *)
Example wrong_signs_negative_index :
  wrong_signs [[0; 1; 2]; [0; 1; 2]] [[1; 2; 3]; [1; -2; 3]] (-1) (-2)
  = wrong_signs [[0; 1; 2]; [0; 1; 2]] [[1; 2; 3]; [1; -2; 3]] 1 0.
Proof. reflexivity. Qed.

(** A zero reference intensity takes [wrong_signs] out of the reals. *)
Example wrong_signs_zero_reference :
  wrong_signs [[0]; [0]] [[0]; [1]] 1 0 = NonFinite.
Proof.
  unfold wrong_signs. simpl. unfold for_range. simpl. unfold wrong_signs_body. simpl.
  now rewrite np_div_zero.
Qed.

(** [int] of a string. *)
Example parse_int_examples :
  parse_int "2" = Some 2%Z /\ parse_int "02" = Some 2%Z /\ parse_int " +1_0 " = Some 10%Z
  /\ parse_int "-3" = Some (-3)%Z /\ parse_int "2.5" = None /\ parse_int "1__0" = None
  /\ parse_int "" = None /\ parse_int "_1" = None /\ parse_int "- 1" = None.
Proof. repeat split; reflexivity. Qed.

(** A repeat count that is a number, not a string, has no [len]. *)
Example opt_rot_averaging_numeric_count :
  opt_rot_averaging [[1; 2; 3; 4]]
    [[PyStr "OR"; PyStr "spherical"; PyStr "B3LYP"; PyStr "aug-cc-pVDZ"; PyStr "10";
      PyNum 2; PyList [PyNum 589; PyNum 355]]] [tt] 0
  = Raise TypeError.
Proof. reflexivity. Qed.

Example opt_rot_averaging_bad_count :
  opt_rot_averaging [[1; 2; 3; 4]] [parameter_row "2.0" [PyNum 589; PyNum 355]] [tt] 0
  = Raise ValueError.
Proof. reflexivity. Qed.

(** Too few intensities for the blocks read. *)
Example opt_rot_averaging_short_intensities :
  opt_rot_averaging [[1; 2]] [parameter_row "2" [PyNum 589; PyNum 355]] [tt] 0
  = Raise IndexError.
Proof.
  eval_average. reflexivity.
Qed.

(** With the count written ["02"] the string has the length of the block
    and the same intensities give the block averages. *)
Example opt_rot_averaging_padded_count :
  opt_rot_averaging [[1; 2; 3; 4]] [parameter_row "02" [PyNum 589; PyNum 355]] [tt] 0
  = Return [2; 3].
Proof.
  eval_average.
  apply (f_equal Return). repeat (apply (f_equal2 cons); [lra |]). reflexivity.
Qed.
End Runs.

(** * Further properties of the seven functions *)

(** ** Loops *)

(** A loop with an invariant [P k s] ("[s] is the state before round [k]")
    either returns a state satisfying [P n], or stops with the outcome of
    the first round that does not return. *)
Lemma for_range_inv {S : Type} (P : nat -> S -> Prop) (n : nat)
    (body : nat -> S -> outcome S) (s : S) :
  P 0%nat s ->
  (forall k t t', (k < n)%nat -> P k t -> body k t = Return t' -> P (Datatypes.S k) t') ->
  (exists t, for_range n body s = Return t /\ P n t)
  \/ (exists k t, (k < n)%nat /\ P k t /\ body k t = for_range n body s
                  /\ forall t', body k t <> Return t').
Proof.
  intros H0 Hstep. induction n as [| n IH].
  - left. exists s. now rewrite for_range_0.
  - rewrite for_range_S.
    destruct IH as [(t & Hrun & Ht) | (k & t & Hk & Ht & Hrun & Hno)];
      [intros k t t' Hk; apply Hstep; lia | |].
    + rewrite Hrun. mstep. destruct (body n t) as [t' | e |] eqn:E.
      * left. exists t'. split; [reflexivity |]. apply (Hstep n t); [lia | exact Ht | exact E].
      * right. exists n, t. repeat split; [lia | exact Ht | exact E | now rewrite E].
      * right. exists n, t. repeat split; [lia | exact Ht | exact E | now rewrite E].
    + right. exists k, t. rewrite <- Hrun.
      split; [lia |]. split; [exact Ht |]. split; [| exact Hno].
      destruct (body k t) as [t' | e |]; [now destruct (Hno t') | reflexivity | reflexivity].
Qed.

(** A loop whose bodies agree on the indices it visits computes the same. *)
Lemma for_each_ext {S : Type} (idx : list nat) (f g : nat -> S -> outcome S) (s : S) :
  (forall a s', a ∈ idx -> f a s' = g a s') -> for_each idx f s = for_each idx g s.
Proof.
  revert s. induction idx as [| a idx IH]; intros s H; simpl; [reflexivity |].
  rewrite (H a s) by constructor.
  destruct (g a s) as [s' | e |]; simpl; [| reflexivity | reflexivity].
  apply IH. intros b t Hb. apply H. now constructor.
Qed.

Lemma for_range_ext {S : Type} (n : nat) (f g : nat -> S -> outcome S) (s : S) :
  (forall a s', (a < n)%nat -> f a s' = g a s') -> for_range n f s = for_range n g s.
Proof.
  intros H. apply for_each_ext. intros a s' Ha. apply H.
  apply elem_of_seq in Ha. lia.
Qed.

Lemma getitem_Return {A : Type} (l : list A) (i : nat) (x : A) :
  getitem l i = Return x -> l !! i = Some x.
Proof. unfold getitem. destruct (l !! i); [now intros [= ->] | discriminate]. Qed.

Lemma getitem_take {A : Type} (l : list A) (n i : nat) :
  (i < n)%nat -> getitem (take n l) i = getitem l i.
Proof. intros H. unfold getitem. now rewrite lookup_take_lt. Qed.

Lemma getitem_agree {A : Type} (l l' : list A) (n i : nat) :
  take n l = take n l' -> (i < n)%nat -> getitem l i = getitem l' i.
Proof.
  intros E H. rewrite <- (getitem_take l n i H), <- (getitem_take l' n i H). now rewrite E.
Qed.

(** [py_index] fails exactly outside [-len, len). *)
Lemma py_index_out_of_range {A : Type} (l : list A) (i : Z) :
  (i < - Z.of_nat (length l) \/ Z.of_nat (length l) <= i)%Z ->
  py_index l i = Raise IndexError.
Proof.
  intros H. unfold py_index, getitem.
  destruct (Z.leb_spec 0 i) as [Hi | Hi].
  - rewrite lookup_ge_None_2; [reflexivity | lia].
  - destruct (Z.leb_spec (- Z.of_nat (length l)) i); [lia | reflexivity].
Qed.

Lemma py_index_in_range {A : Type} (l : list A) (i : Z) :
  (- Z.of_nat (length l) <= i < Z.of_nat (length l))%Z ->
  exists x, py_index l i = Return x.
Proof.
  intros H. unfold py_index.
  destruct (Z.leb_spec 0 i) as [Hi | Hi].
  - destruct (getitem_lt l (Z.to_nat i)) as (x & _ & ->); [lia | eauto].
  - destruct (Z.leb_spec (- Z.of_nat (length l)) i); [| lia].
    destruct (getitem_lt l (Z.to_nat (Z.of_nat (length l) + i))) as (x & _ & ->); [lia | eauto].
Qed.

Lemma py_index_cases {A : Type} (l : list A) (i : Z) :
  (py_index l i = Raise IndexError
   /\ (i < - Z.of_nat (length l) \/ Z.of_nat (length l) <= i)%Z)
  \/ (exists x, py_index l i = Return x
                /\ (- Z.of_nat (length l) <= i < Z.of_nat (length l))%Z).
Proof.
  destruct (Z_lt_le_dec i (- Z.of_nat (length l))) as [H | H].
  - left. split; [apply py_index_out_of_range |]; lia.
  - destruct (Z_lt_le_dec i (Z.of_nat (length l))) as [H' | H'].
    + right. destruct (py_index_in_range l i) as [x Hx]; [lia |].
      exists x. split; [exact Hx | lia].
    + left. split; [apply py_index_out_of_range |]; lia.
Qed.

Lemma py_index_negative {A : Type} (l : list A) (i : Z) :
  (- Z.of_nat (length l) <= i < 0)%Z ->
  py_index l i = py_index l (Z.of_nat (length l) + i).
Proof.
  intros H. unfold py_index.
  destruct (Z.leb_spec 0 i); [lia |].
  destruct (Z.leb_spec (- Z.of_nat (length l)) i); [| lia].
  destruct (Z.leb_spec 0 (Z.of_nat (length l) + i)); [reflexivity | lia].
Qed.

(** ** Indices into the collections *)

Section Indices.
Variables dir_frequencies dir_intensities : spectra.
Variables sample_index reference_index : Z.

Ltac look l i :=
  let H := fresh "H" in
  destruct (py_index_cases l i) as [[-> H] | (? & -> & H)];
  [try (repeat split; reflexivity) | mstep].

Ltac impossible := exfalso; unfold outside in *; lia.

(** X1.  An index outside [-len, len) of a collection it is applied to makes
    each of the six comparison functions raise [IndexError]. *)
Theorem index_out_of_range_raises :
  (outside dir_intensities sample_index \/ outside dir_frequencies reference_index
   \/ outside dir_intensities reference_index ->
   single_denominator_overlap dir_frequencies dir_intensities sample_index reference_index
   = Raise IndexError
   /\ double_denominator_overlap dir_frequencies dir_intensities sample_index reference_index
      = Raise IndexError
   /\ integrated_difference dir_frequencies dir_intensities sample_index reference_index
      = Raise IndexError)
  /\ (outside dir_intensities sample_index \/ outside dir_intensities reference_index ->
      compute_statistics dir_intensities sample_index reference_index = Raise IndexError)
  /\ (outside dir_frequencies sample_index \/ outside dir_intensities sample_index
      \/ outside dir_frequencies reference_index \/ outside dir_intensities reference_index ->
      wrong_signs dir_frequencies dir_intensities sample_index reference_index
      = Raise IndexError
      /\ normal_mode_reordering dir_frequencies dir_intensities sample_index reference_index
         = Raise IndexError).
Proof.
  split; [| split].
  - intros Hout.
    unfold single_denominator_overlap, double_denominator_overlap, integrated_difference.
    look dir_intensities sample_index.
    look dir_frequencies reference_index.
    look dir_intensities reference_index. impossible.
  - intros Hout. unfold compute_statistics.
    look dir_intensities sample_index.
    look dir_intensities reference_index. impossible.
  - intros Hout. unfold wrong_signs, normal_mode_reordering.
    look dir_frequencies sample_index.
    look dir_intensities sample_index.
    look dir_frequencies reference_index.
    look dir_intensities reference_index. impossible.
Qed.
End Indices.

(** ** More on the trapezoidal rule *)

Section TrapzMore.
Local Open Scope R_scope.

Lemma np_diff_length (x : list R) : length (np_diff x) = (length x - 1)%nat.
Proof. unfold np_diff. rewrite length_zip_with. destruct x; simpl; lia. Qed.

Lemma np_trapz_equal_length (y x : list R) :
  length y = length x -> np_trapz y x = Return (trapz_sum y x).
Proof.
  intros E. unfold np_trapz, np_mul, np_binop.
  rewrite np_diff_length, length_pair_sums, E, Nat.eqb_refl. reflexivity.
Qed.

(** [np.trapz] returns or raises [ValueError]. *)
Lemma np_binop_outcome (f : R -> R -> R) (a b : list R) :
  (exists v, np_binop f a b = Return v) \/ np_binop f a b = Raise ValueError.
Proof.
  unfold np_binop. destruct (length a =? length b)%nat; [eauto |].
  destruct a as [| x [| x' a]]; destruct b as [| y [| y' b]]; eauto.
Qed.

Lemma np_trapz_outcome (y x : list R) :
  (exists v, np_trapz y x = Return v) \/ np_trapz y x = Raise ValueError.
Proof.
  unfold np_trapz, np_mul.
  destruct (np_binop_outcome Rmult (np_diff x) (pair_sums y)) as [[v ->] | ->]; eauto.
Qed.

Lemma np_mul_comm (a b : list R) : np_mul a b = np_mul b a.
Proof.
  unfold np_mul, np_binop. rewrite (Nat.eqb_sym (length b)).
  destruct (length a =? length b)%nat.
  - f_equal. revert b. induction a as [| x a IH]; intros [| y b]; simpl; try reflexivity.
    rewrite IH. f_equal. lra.
  - destruct a as [| x [| x' a]]; destruct b as [| y [| y' b]]; simpl;
      try reflexivity; f_equal; repeat (apply (f_equal2 cons); [lra |]);
      try reflexivity; apply map_ext; intros; lra.
Qed.

Lemma trapz_sum_short_x (y : list R) (x0 : R) : trapz_sum y [x0] = 0.
Proof. reflexivity. Qed.

Lemma trapz_sum_cons2 (y0 y1 x0 x1 : R) (ys xs : list R) :
  trapz_sum (y0 :: y1 :: ys) (x0 :: x1 :: xs)
  = (x1 - x0) * (y1 + y0) / 2 + trapz_sum (y1 :: ys) (x1 :: xs).
Proof. reflexivity. Qed.

Lemma nondecreasing_cons (x0 x1 : R) (xs : list R) :
  nondecreasing (x0 :: x1 :: xs) -> x0 <= x1 /\ nondecreasing (x1 :: xs).
Proof.
  intros H. split.
  - now apply (H 0%nat).
  - intros i a b Ha Hb. now apply (H (S i)).
Qed.

(** On an axis that never steps back, the quadratic form
    [t^2 <y,y> + 2 t <y,z> + <z,z>] of the trapezoidal products is
    non-negative. *)
Lemma trapz_quadratic_nonneg (x y z : list R) (t : R) :
  nondecreasing x -> length y = length z ->
  0 <= t * t * trapz_sum (zip_with Rmult y y) x
       + 2 * t * trapz_sum (zip_with Rmult y z) x
       + trapz_sum (zip_with Rmult z z) x.
Proof.
  revert y z. induction x as [| x0 xs IH]; intros y z Hx Hlen.
  - unfold trapz_sum. simpl. unfold Rsum. simpl. lra.
  - destruct xs as [| x1 xs].
    + rewrite !trapz_sum_short_x. lra.
    + destruct (nondecreasing_cons _ _ _ Hx) as [Hd Hx'].
      destruct y as [| y0 [| y1 ys]]; destruct z as [| z0 [| z1 zs]];
        try discriminate Hlen;
        try (unfold trapz_sum; simpl; unfold Rsum; simpl; lra).
      cbn [zip_with]. rewrite !trapz_sum_cons2.
      assert (IH' := IH (y1 :: ys) (z1 :: zs) Hx').
      cbn [zip_with] in IH'. specialize (IH' ltac:(simpl in *; lia)).
      assert (Hsq : 0 <= (x1 - x0) * ((t * y1 + z1) * (t * y1 + z1)
                                      + (t * y0 + z0) * (t * y0 + z0))).
      { apply Rmult_le_pos; [lra |].
        pose proof (Rle_0_sqr (t * y1 + z1)). pose proof (Rle_0_sqr (t * y0 + z0)).
        unfold Rsqr in *. lra. }
      lra.
Qed.

Lemma trapz_self_nonneg (x y : list R) :
  nondecreasing x -> 0 <= trapz_sum (zip_with Rmult y y) x.
Proof.
  intros Hx. pose proof (trapz_quadratic_nonneg x y y 0 Hx eq_refl). lra.
Qed.

(** Cauchy-Schwarz for the trapezoidal products. *)
Lemma trapz_cauchy_schwarz (x y z : list R) :
  nondecreasing x -> length y = length z ->
  0 < trapz_sum (zip_with Rmult y y) x ->
  trapz_sum (zip_with Rmult y z) x * trapz_sum (zip_with Rmult y z) x
  <= trapz_sum (zip_with Rmult y y) x * trapz_sum (zip_with Rmult z z) x.
Proof.
  intros Hx Hlen HA.
  set (A := trapz_sum (zip_with Rmult y y) x) in *.
  set (B := trapz_sum (zip_with Rmult y z) x).
  set (C := trapz_sum (zip_with Rmult z z) x).
  pose proof (trapz_quadratic_nonneg x y z (- B / A) Hx Hlen) as H.
  fold A B C in H.
  assert (E : - B / A * (- B / A) * A + 2 * (- B / A) * B + C = (A * C - B * B) / A)
    by (field; lra).
  rewrite E in H.
  assert (0 <= A * C - B * B).
  { apply Rmult_le_reg_r with (r := / A); [now apply Rinv_0_lt_compat |].
    rewrite Rmult_0_l. exact H. }
  lra.
Qed.
End TrapzMore.

(** ** More on the overlap family *)

Section OverlapMore.
Local Open Scope R_scope.

Lemma np_mul_equal_length (a b : list R) :
  length a = length b -> np_mul a b = Return (zip_with Rmult a b).
Proof. intros E. unfold np_mul, np_binop. now rewrite E, Nat.eqb_refl. Qed.

Lemma self_overlap_equal_length (y x : list R) :
  length y = length x -> self_overlap y x = Return (trapz_sum (zip_with Rmult y y) x).
Proof.
  intros E. unfold self_overlap. rewrite np_mul_equal_length by reflexivity. mstep.
  apply np_trapz_equal_length. rewrite length_zip_with. lia.
Qed.

Variables dir_frequency_axis dir_intensity_axis : spectra.
Variables sample_index reference_index : Z.
Variables sample reference frequency : list R.

Hypothesis sample_at : py_index dir_intensity_axis sample_index = Return sample.
Hypothesis frequency_at : py_index dir_frequency_axis reference_index = Return frequency.
Hypothesis reference_at : py_index dir_intensity_axis reference_index = Return reference.

Lemma single_unfold :
  single_denominator_overlap dir_frequency_axis dir_intensity_axis
    sample_index reference_index
  = (rs ← np_mul reference sample;
     numerator ← np_trapz rs frequency;
     denominator ← self_overlap reference frequency;
     np_div numerator denominator).
Proof.
  unfold single_denominator_overlap, self_overlap.
  rewrite sample_at, frequency_at, reference_at. mstep.
  destruct (np_mul reference sample); mstep; [| reflexivity | reflexivity].
  destruct (np_trapz _ frequency); mstep; [| reflexivity | reflexivity].
  now destruct (np_mul reference reference).
Qed.

Lemma double_unfold :
  double_denominator_overlap dir_frequency_axis dir_intensity_axis
    sample_index reference_index
  = (rs ← np_mul reference sample;
     numerator ← np_trapz rs frequency;
     ref_self ← self_overlap reference frequency;
     sample_self ← self_overlap sample frequency;
     denominator ← np_sqrt (ref_self * sample_self);
     np_div numerator denominator).
Proof.
  unfold double_denominator_overlap, self_overlap.
  rewrite sample_at, frequency_at, reference_at. mstep.
  destruct (np_mul reference sample); mstep; [| reflexivity | reflexivity].
  destruct (np_trapz _ frequency); mstep; [| reflexivity | reflexivity].
  destruct (np_mul reference reference); mstep; [| reflexivity | reflexivity].
  destruct (np_trapz _ frequency); mstep; [| reflexivity | reflexivity].
  now destruct (np_mul sample sample).
Qed.

Lemma integrated_unfold :
  integrated_difference dir_frequency_axis dir_intensity_axis
    sample_index reference_index
  = (ref_self ← self_overlap reference frequency;
     sample_self ← self_overlap sample frequency;
     denominator ← self_overlap reference frequency;
     np_div (ref_self - sample_self) denominator).
Proof.
  unfold integrated_difference.
  rewrite sample_at, frequency_at, reference_at. mstep.
  now rewrite !self_overlap_square.
Qed.

(** X4.  On sequences of one length over a frequency axis that never steps
    back, with both self-overlap integrals strictly positive,
    [double_denominator_overlap] returns a value between -1 and 1. *)
Theorem double_overlap_bounded (Tr Ts : R) :
  length reference = length frequency -> length sample = length frequency ->
  nondecreasing frequency ->
  self_overlap reference frequency = Return Tr -> 0 < Tr ->
  self_overlap sample frequency = Return Ts -> 0 < Ts ->
  exists v,
    double_denominator_overlap dir_frequency_axis dir_intensity_axis
      sample_index reference_index = Return v
    /\ -1 <= v <= 1.
Proof.
  intros Lr Ls Hx HTr Hr HTs Hs. rewrite double_unfold.
  rewrite np_mul_equal_length by lia. mstep.
  rewrite np_trapz_equal_length by (rewrite length_zip_with; lia). mstep.
  rewrite self_overlap_equal_length in HTr, HTs by assumption.
  injection HTr as <-. injection HTs as <-.
  rewrite !self_overlap_equal_length by assumption. mstep.
  set (A := trapz_sum (zip_with Rmult reference reference) frequency) in *.
  set (B := trapz_sum (zip_with Rmult reference sample) frequency).
  set (C := trapz_sum (zip_with Rmult sample sample) frequency) in *.
  assert (HAC : 0 < A * C) by nra.
  assert (Hq : 0 < sqrt (A * C)) by now apply sqrt_lt_R0.
  rewrite np_sqrt_ok by lra. mstep. rewrite np_div_ok by lra.
  eexists. split; [reflexivity |].
  assert (HCS : B * B <= A * C)
    by (apply trapz_cauchy_schwarz; [assumption | lia | assumption]).
  assert (Habs : Rabs B <= sqrt (A * C)).
  { rewrite <- sqrt_Rsqr_abs. apply sqrt_le_1_alt. exact HCS. }
  pose proof (Rle_abs B). pose proof (Rle_abs (- B)). rewrite Rabs_Ropp in *.
  split; apply Rmult_le_reg_r with (r := sqrt (A * C)); try lra;
    replace (B / sqrt (A * C) * sqrt (A * C)) with B by (field; lra); lra.
Qed.

(** X3.  A spectrum compared with itself: when the self-overlap integral is
    not zero, [single_denominator_overlap] returns 1. *)
Theorem single_overlap_identical (T : R) :
  sample = reference ->
  self_overlap reference frequency = Return T -> T <> 0 ->
  single_denominator_overlap dir_frequency_axis dir_intensity_axis
    sample_index reference_index = Return 1.
Proof.
  intros E HT H0. rewrite single_unfold, E.
  unfold self_overlap in HT |- *.
  destruct (np_mul reference reference) as [rr | e |]; mstep; try discriminate HT.
  cbn [mbind outcome_mbind outcome_bind] in HT. rewrite HT. mstep.
  rewrite np_div_ok by exact H0. f_equal. now field.
Qed.

(** X8.  With a strictly positive reference self-overlap [Tr] and a sample
    self-overlap [Ts], [integrated_difference] returns [1 - Ts/Tr]: positive
    exactly when the sample integral is the smaller one, and never above 1
    when the sample lies on a frequency axis that never steps back. *)
Theorem integrated_difference_value (Tr Ts : R) :
  self_overlap reference frequency = Return Tr -> 0 < Tr ->
  self_overlap sample frequency = Return Ts ->
  exists v,
    integrated_difference dir_frequency_axis dir_intensity_axis
      sample_index reference_index = Return v
    /\ v = 1 - Ts / Tr
    /\ (0 < v <-> Ts < Tr)
    /\ (nondecreasing frequency -> length sample = length frequency -> v <= 1).
Proof.
  intros HTr Hpos HTs. rewrite integrated_unfold, HTr, HTs. mstep.
  rewrite np_div_ok by lra. eexists. split; [reflexivity |].
  assert (E : (Tr - Ts) / Tr = 1 - Ts / Tr) by (field; lra).
  split; [exact E |]. rewrite E.
  assert (Hdiv : forall x, 0 < x / Tr <-> 0 < x).
  { intros x. split; intros H.
    - replace x with (x / Tr * Tr) by (field; lra). now apply Rmult_lt_0_compat.
    - now apply Rdiv_lt_0_compat. }
  split.
  - rewrite <- E. rewrite Hdiv. lra.
  - intros Hx Ls. rewrite self_overlap_equal_length in HTs by exact Ls.
    injection HTs as <-.
    pose proof (trapz_self_nonneg frequency sample Hx) as Hnn.
    assert (0 <= trapz_sum (zip_with Rmult sample sample) frequency / Tr).
    { apply Rmult_le_pos; [exact Hnn |]. apply Rlt_le. now apply Rinv_0_lt_compat. }
    lra.
Qed.


(** X10.  On sequences of one length, a reference whose self-overlap integral
    is zero (an all-zero reference, say) makes no overlap function raise:
    each returns a value that is not a finite number. *)
Theorem overlap_zero_reference :
  length reference = length frequency -> length sample = length frequency ->
  self_overlap reference frequency = Return 0 ->
  single_denominator_overlap dir_frequency_axis dir_intensity_axis
    sample_index reference_index = NonFinite
  /\ double_denominator_overlap dir_frequency_axis dir_intensity_axis
       sample_index reference_index = NonFinite
  /\ integrated_difference dir_frequency_axis dir_intensity_axis
       sample_index reference_index = NonFinite.
Proof.
  intros Lr Ls H0.
  rewrite single_unfold, double_unfold, integrated_unfold, H0.
  rewrite np_mul_equal_length by lia. mstep.
  rewrite np_trapz_equal_length by (rewrite length_zip_with; lia). mstep.
  rewrite self_overlap_equal_length by exact Ls. mstep.
  rewrite Rmult_0_l, np_sqrt_ok by lra. mstep. rewrite sqrt_0, !np_div_zero.
  repeat split; reflexivity.
Qed.
End OverlapMore.

Section OverlapPairs.
Local Open Scope R_scope.

Lemma self_overlap_outcome (y x : list R) :
  (exists v, self_overlap y x = Return v) \/ self_overlap y x = Raise ValueError.
Proof.
  unfold self_overlap. rewrite np_mul_self. mstep. apply np_trapz_outcome.
Qed.

Lemma self_overlap_scaled (c : R) (y x : list R) :
  self_overlap (map (Rmult c) y) x = Rmult (c * c) <$> self_overlap y x.
Proof.
  unfold self_overlap. rewrite np_mul_self_scal, np_mul_self. mstep.
  apply np_trapz_scal.
Qed.

Variables dir_frequency_axis dir_intensity_axis : spectra.
Variables sample_index reference_index : Z.
Variables sample reference frequency : list R.

Hypothesis sample_at : py_index dir_intensity_axis sample_index = Return sample.
Hypothesis reference_at : py_index dir_intensity_axis reference_index = Return reference.
Hypothesis frequency_at_reference :
  py_index dir_frequency_axis reference_index = Return frequency.

(** X5.  When the two spectra lie on the same frequency axis,
    [double_denominator_overlap] does not depend on which of them is called
    the sample and which the reference. *)
Theorem double_overlap_symmetric :
  py_index dir_frequency_axis sample_index = Return frequency ->
  double_denominator_overlap dir_frequency_axis dir_intensity_axis
    sample_index reference_index
  = double_denominator_overlap dir_frequency_axis dir_intensity_axis
      reference_index sample_index.
Proof.
  intros frequency_at_sample.
  rewrite (double_unfold _ _ _ _ _ _ _ sample_at frequency_at_reference reference_at).
  rewrite (double_unfold _ _ _ _ _ _ _ reference_at frequency_at_sample sample_at).
  rewrite (np_mul_comm sample reference).
  destruct (np_mul reference sample) as [rs | e |]; mstep; try reflexivity.
  destruct (np_trapz rs frequency) as [N | e |]; mstep; try reflexivity.
  destruct (self_overlap_outcome reference frequency) as [[A ->] | ->];
    destruct (self_overlap_outcome sample frequency) as [[C ->] | ->]; mstep;
    try reflexivity.
  now rewrite (Rmult_comm C A).
Qed.

(** X6.  When the two spectra lie on the same frequency axis, have one
    length and strictly positive self-overlap integrals, the square of
    [double_denominator_overlap] is the product of the two
    [single_denominator_overlap] values taken in either direction. *)
Theorem double_overlap_squared (Tr Ts : R) :
  py_index dir_frequency_axis sample_index = Return frequency ->
  length sample = length reference ->
  self_overlap reference frequency = Return Tr -> 0 < Tr ->
  self_overlap sample frequency = Return Ts -> 0 < Ts ->
  exists a b c,
    single_denominator_overlap dir_frequency_axis dir_intensity_axis
      sample_index reference_index = Return a
    /\ single_denominator_overlap dir_frequency_axis dir_intensity_axis
         reference_index sample_index = Return b
    /\ double_denominator_overlap dir_frequency_axis dir_intensity_axis
         sample_index reference_index = Return c
    /\ c * c = a * b.
Proof.
  intros frequency_at_sample Hlen HTr Hr HTs Hs.
  rewrite (single_unfold _ _ _ _ _ _ _ sample_at frequency_at_reference reference_at).
  rewrite (single_unfold _ _ _ _ _ _ _ reference_at frequency_at_sample sample_at).
  rewrite (double_unfold _ _ _ _ _ _ _ sample_at frequency_at_reference reference_at).
  rewrite (np_mul_comm sample reference), HTr, HTs.
  rewrite np_mul_equal_length by lia. mstep.
  assert (HN : exists N, np_trapz (zip_with Rmult reference sample) frequency = Return N).
  { apply (np_trapz_defined_length (map (fun x => x * x) reference)).
    - rewrite length_map, length_zip_with. lia.
    - exists Tr. unfold self_overlap in HTr. now rewrite np_mul_self in HTr. }
  destruct HN as [N ->]. mstep.
  assert (Hq : 0 < sqrt (Tr * Ts)) by (apply sqrt_lt_R0; nra).
  rewrite np_sqrt_ok by nra. mstep. rewrite !np_div_ok by lra.
  eexists _, _, _. repeat split; try reflexivity.
  replace (N / sqrt (Tr * Ts) * (N / sqrt (Tr * Ts)))
    with (N * N / (sqrt (Tr * Ts) * sqrt (Tr * Ts))) by (field; lra).
  rewrite sqrt_sqrt by nra. field. lra.
Qed.

(** X7.  Multiplying every sample intensity by a factor [c] that is not zero
    multiplies [single_denominator_overlap] by [c] and
    [double_denominator_overlap] by the sign of [c]; errors and non-finite
    results stay what they were. *)
Theorem scaling_sample_intensity (scaled : spectra) (c : R) :
  c <> 0 ->
  py_index scaled sample_index = Return (map (Rmult c) sample) ->
  py_index scaled reference_index = Return reference ->
  single_denominator_overlap dir_frequency_axis scaled sample_index reference_index
  = Rmult c <$> single_denominator_overlap dir_frequency_axis dir_intensity_axis
                  sample_index reference_index
  /\ double_denominator_overlap dir_frequency_axis scaled sample_index reference_index
     = Rmult (c / Rabs c) <$> double_denominator_overlap dir_frequency_axis
                                dir_intensity_axis sample_index reference_index.
Proof.
  intros Hc Hs' Hr'.
  rewrite (single_unfold _ _ _ _ _ _ _ sample_at frequency_at_reference reference_at).
  rewrite (single_unfold _ _ _ _ _ _ _ Hs' frequency_at_reference Hr').
  rewrite (double_unfold _ _ _ _ _ _ _ sample_at frequency_at_reference reference_at).
  rewrite (double_unfold _ _ _ _ _ _ _ Hs' frequency_at_reference Hr').
  rewrite np_mul_scal_r, self_overlap_scaled.
  assert (Habs : 0 < Rabs c) by now apply Rabs_pos_lt.
  destruct (np_mul reference sample) as [rs | e |]; mstep; try (split; reflexivity).
  rewrite np_trapz_scal.
  destruct (np_trapz rs frequency) as [N | e |]; mstep; try (split; reflexivity).
  destruct (self_overlap_outcome reference frequency) as [[A ->] | ->]; mstep;
    [| split; reflexivity].
  split.
  - unfold np_div. destruct (Req_dec_T A 0); mstep; [reflexivity |].
    f_equal. now field.
  - destruct (self_overlap_outcome sample frequency) as [[C ->] | ->]; mstep;
      [| reflexivity].
    replace (A * (c * c * C)) with (c * c * (A * C)) by ring.
    assert (Hcc : 0 < c * c) by nra.
    unfold np_sqrt.
    destruct (Rlt_dec (A * C) 0) as [Hneg | Hnn];
      destruct (Rlt_dec (c * c * (A * C)) 0) as [Hneg' | Hnn']; try nra; mstep;
      [reflexivity |].
    rewrite sqrt_mult by nra. change (c * c) with (Rsqr c). rewrite sqrt_Rsqr_abs.
    unfold np_div.
    destruct (Req_dec_T (sqrt (A * C)) 0) as [Hz | Hnz];
      destruct (Req_dec_T (Rabs c * sqrt (A * C)) 0) as [Hz' | Hnz']; mstep.
    + reflexivity.
    + exfalso. apply Hnz'. rewrite Hz. ring.
    + exfalso. apply Rmult_integral in Hz'. destruct Hz'; lra.
    + f_equal. field. split; [exact Hnz | lra].
Qed.
End OverlapPairs.

(** ** More on [compute_statistics] *)

Section StatisticsMore.
Local Open Scope R_scope.

Lemma for_range_split {S : Type} (k m : nat) (body : nat -> S -> outcome S) (s : S) :
  for_range (k + m) body s = (for_range k body s ≫= for_each (seq k m) body).
Proof. unfold for_range. now rewrite seq_app, for_each_app. Qed.

Lemma stat_rounds_return (sample reference : list R) (k : nat) :
  (k <= length sample)%nat -> (k <= length reference)%nat ->
  exists st,
    for_range k (stat_body sample reference (np_average sample) (np_average reference))
      (mk_stat 0 0 None None) = Return st.
Proof.
  intros Hs Hr. induction k as [| k IH]; [eexists; apply for_range_0 |].
  destruct IH as [st Hrun]; [lia | lia |].
  rewrite for_range_S, Hrun. mstep. unfold stat_body.
  destruct (getitem_lt sample k) as (x & _ & ->); [lia |].
  destruct (getitem_lt reference k) as (y & _ & ->); [lia |].
  assert (sample <> []) by (destruct sample; [simpl in Hs; lia | discriminate]).
  assert (reference <> []) by (destruct reference; [simpl in Hr; lia | discriminate]).
  rewrite !np_average_nonempty by assumption. mstep.
  rewrite !np_div_ok by now apply INR_length_nonzero. mstep. eauto.
Qed.

Variable dir_intensities : spectra.
Variables sample_index reference_index : Z.
Variables sample reference : list R.
Hypothesis sample_at : py_index dir_intensities sample_index = Return sample.
Hypothesis reference_at : py_index dir_intensities reference_index = Return reference.

(** X11.  An empty sample sequence makes [compute_statistics] raise
    [UnboundLocalError], whatever the reference holds. *)
Theorem compute_statistics_empty :
  sample = [] ->
  compute_statistics dir_intensities sample_index reference_index
  = Raise UnboundLocalError.
Proof.
  intros E. unfold compute_statistics. rewrite sample_at, reference_at, E. reflexivity.
Qed.

(** X12.  A reference sequence shorter than the sample makes
    [compute_statistics] raise [IndexError]. *)
Theorem compute_statistics_reference_too_short :
  (length reference < length sample)%nat ->
  compute_statistics dir_intensities sample_index reference_index = Raise IndexError.
Proof.
  intros Hlt. unfold compute_statistics. rewrite sample_at, reference_at. mstep.
  unfold variance_loop.
  replace (length sample)
    with (length reference + S (length sample - length reference - 1))%nat at 1 by lia.
  rewrite for_range_split.
  destruct (stat_rounds_return sample reference (length reference)) as [st ->];
    [lia | lia |].
  assert (Hb : stat_body sample reference (np_average sample) (np_average reference)
                 (length reference) st = Raise IndexError).
  { unfold stat_body.
    destruct (getitem_lt sample (length reference)) as (x & _ & ->); [lia |].
    assert (sample <> []) by (destruct sample; [simpl in Hlt; lia | discriminate]).
    rewrite (np_average_nonempty sample) by assumption. mstep.
    rewrite np_div_ok by now apply INR_length_nonzero. mstep.
    unfold getitem. rewrite lookup_ge_None_2 by lia. reflexivity. }
  mstep. cbn [seq for_each]. now rewrite Hb.
Qed.

(** X13.  On non-empty sequences of one length the triple does not depend on
    which sequence is the sample and which the reference. *)
Theorem compute_statistics_symmetric :
  sample <> [] -> length sample = length reference ->
  compute_statistics dir_intensities sample_index reference_index
  = compute_statistics dir_intensities reference_index sample_index.
Proof.
  intros Hne Hlen.
  assert (Hne' : reference <> [])
    by (destruct reference; [destruct sample; [congruence | discriminate] | discriminate]).
  rewrite (compute_statistics_value _ _ _ sample reference sample_at reference_at Hne)
    by lia.
  rewrite (compute_statistics_value _ _ _ reference sample reference_at sample_at Hne')
    by lia.
  cbv zeta.
  assert (E1 : sq_dev_sum (mean reference) (take (length sample) reference)
               / INR (length reference) = population_variance reference)
    by (rewrite Hlen, firstn_all; reflexivity).
  assert (E2 : sq_dev_sum (mean sample) (take (length reference) sample)
               / INR (length sample) = population_variance sample)
    by (rewrite <- Hlen, firstn_all; reflexivity).
  rewrite E1, E2.
  rewrite (Rabs_minus_sym (mean reference)),
    (Rabs_minus_sym (population_variance reference)),
    (Rabs_minus_sym (sqrt (population_variance reference))).
  reflexivity.
Qed.
End StatisticsMore.

Section StatisticsShift.
Local Open Scope R_scope.

Lemma sq_dev_sum_app (m : R) (l1 l2 : list R) :
  sq_dev_sum m (l1 ++ l2) = sq_dev_sum m l1 + sq_dev_sum m l2.
Proof. unfold sq_dev_sum. now rewrite map_app, Rsum_app. Qed.

Lemma sq_dev_sum_take_le (m : R) (k : nat) (l : list R) :
  sq_dev_sum m (take k l) <= sq_dev_sum m l.
Proof.
  rewrite <- (take_drop k l) at 2. rewrite sq_dev_sum_app.
  pose proof (sq_dev_sum_nonneg m (drop k l)). lra.
Qed.

Lemma Rsum_shift (c : R) (l : list R) :
  Rsum (map (Rplus c) l) = c * INR (length l) + Rsum l.
Proof.
  unfold Rsum. induction l as [| x l IH]; [simpl; lra |].
  cbn [map foldr length]. rewrite IH, S_INR. lra.
Qed.

Lemma mean_shift (c : R) (l : list R) : l <> [] -> mean (map (Rplus c) l) = c + mean l.
Proof.
  intros H. unfold mean. rewrite Rsum_shift, length_map. field.
  now apply INR_length_nonzero.
Qed.

Lemma sq_dev_sum_shift (c m : R) (l : list R) :
  sq_dev_sum (c + m) (map (Rplus c) l) = sq_dev_sum m l.
Proof.
  unfold sq_dev_sum. rewrite map_map. f_equal. apply map_ext. intros x. ring.
Qed.

(** X14.  With a reference longer than the (non-empty) sample, the reference
    variance the loop leaves is never above the population variance of the
    reference: the squared deviations of the tail are missing from it. *)
Theorem reference_variance_underestimated (sample reference : list R) :
  sample <> [] -> (length sample <= length reference)%nat ->
  exists st rv,
    variance_loop sample reference (np_average sample) (np_average reference) = Return st
    /\ reference_variance st = Some rv
    /\ 0 <= rv <= population_variance reference.
Proof.
  intros Hne Hlen.
  assert (Hpos : (0 < length sample)%nat)
    by (destruct sample; [contradiction | simpl; lia]).
  assert (Hn : 0 < / INR (length reference))
    by (apply Rinv_0_lt_compat, lt_0_INR; lia).
  eexists _, _. split; [unfold variance_loop; apply variance_loop_prefix; lia |].
  cbn [reference_variance]. rewrite bound_after_pos by lia.
  split; [reflexivity |]. unfold population_variance, Rdiv. split.
  - apply Rmult_le_pos; [apply sq_dev_sum_nonneg | lra].
  - apply Rmult_le_compat_r; [lra | apply sq_dev_sum_take_le].
Qed.

Variable dir_intensities : spectra.
Variables sample_index reference_index : Z.
Variables sample reference : list R.
Hypothesis sample_at : py_index dir_intensities sample_index = Return sample.
Hypothesis reference_at : py_index dir_intensities reference_index = Return reference.

(** X15.  Adding one constant to every intensity of both sequences leaves
    the triple unchanged (non-empty sample, no longer than the reference). *)
Theorem compute_statistics_shift_invariant (shifted : spectra) (c : R) :
  py_index shifted sample_index = Return (map (Rplus c) sample) ->
  py_index shifted reference_index = Return (map (Rplus c) reference) ->
  sample <> [] -> (length sample <= length reference)%nat ->
  compute_statistics shifted sample_index reference_index
  = compute_statistics dir_intensities sample_index reference_index.
Proof.
  intros Hs' Hr' Hne Hlen.
  assert (Hne' : reference <> [])
    by (destruct reference; [destruct sample; simpl in *; [congruence | lia] | discriminate]).
  rewrite (compute_statistics_value _ _ _ sample reference sample_at reference_at Hne)
    by lia.
  rewrite (compute_statistics_value _ _ _ _ _ Hs' Hr')
    by (rewrite ?length_map; first [lia | now destruct sample]).
  cbv zeta. unfold population_variance.
  rewrite !length_map, !mean_shift by assumption.
  rewrite <- fmap_take. change (fmap (Rplus c)) with (map (Rplus c)).
  rewrite !sq_dev_sum_shift.
  replace (c + mean reference - (c + mean sample)) with (mean reference - mean sample)
    by ring.
  reflexivity.
Qed.
End StatisticsShift.

(** ** More on the sign diagnostics *)

Section SignShape.
Local Open Scope R_scope.



Variables dir_frequencies dir_intensities : spectra.
Variables sample_index reference_index : Z.
Variables sample_frequency sample_intensity : list R.
Variables reference_frequency reference_intensity : list R.

Hypothesis sample_frequency_at :
  py_index dir_frequencies sample_index = Return sample_frequency.
Hypothesis sample_intensity_at :
  py_index dir_intensities sample_index = Return sample_intensity.
Hypothesis reference_frequency_at :
  py_index dir_frequencies reference_index = Return reference_frequency.
Hypothesis reference_intensity_at :
  py_index dir_intensities reference_index = Return reference_intensity.

End SignShape.

Section SignFrame.
Local Open Scope R_scope.

Variables dir_frequencies dir_intensities dir_frequencies' dir_intensities' : spectra.
Variables sample_index reference_index : Z.
Variables sample_frequency sample_intensity reference_intensity : list R.
Variables sample_frequency' sample_intensity' reference_intensity' : list R.
Variable reference_frequency : list R.

Hypothesis sample_frequency_at :
  py_index dir_frequencies sample_index = Return sample_frequency.
Hypothesis sample_intensity_at :
  py_index dir_intensities sample_index = Return sample_intensity.
Hypothesis reference_frequency_at :
  py_index dir_frequencies reference_index = Return reference_frequency.
Hypothesis reference_intensity_at :
  py_index dir_intensities reference_index = Return reference_intensity.
Hypothesis sample_frequency_at' :
  py_index dir_frequencies' sample_index = Return sample_frequency'.
Hypothesis sample_intensity_at' :
  py_index dir_intensities' sample_index = Return sample_intensity'.
Hypothesis reference_frequency_at' :
  py_index dir_frequencies' reference_index = Return reference_frequency.
Hypothesis reference_intensity_at' :
  py_index dir_intensities' reference_index = Return reference_intensity'.

(** X18.  [wrong_signs] and [normal_mode_reordering] read the sample
    frequencies, the sample intensities and the reference intensities only
    at positions below the length of the reference frequency sequence: two
    inputs that agree there (and on the reference frequencies) give the same
    outcome, whatever follows in the longer sequences. *)
Theorem sign_diagnostics_read_prefix :
  let n := length reference_frequency in
  take n sample_frequency = take n sample_frequency' ->
  take n sample_intensity = take n sample_intensity' ->
  take n reference_intensity = take n reference_intensity' ->
  wrong_signs dir_frequencies dir_intensities sample_index reference_index
  = wrong_signs dir_frequencies' dir_intensities' sample_index reference_index
  /\ normal_mode_reordering dir_frequencies dir_intensities sample_index reference_index
     = normal_mode_reordering dir_frequencies' dir_intensities'
         sample_index reference_index.
Proof.
  intros n Hsf Hsi Hri. split.
  - rewrite (wrong_signs_unfold _ _ _ _ _ _ _ _ sample_frequency_at sample_intensity_at
               reference_frequency_at reference_intensity_at).
    rewrite (wrong_signs_unfold _ _ _ _ _ _ _ _ sample_frequency_at' sample_intensity_at'
               reference_frequency_at' reference_intensity_at').
    f_equal. apply for_range_ext. intros a st Ha. unfold wrong_signs_body.
    now rewrite (getitem_agree _ _ n a Hsf Ha), (getitem_agree _ _ n a Hsi Ha),
      (getitem_agree _ _ n a Hri Ha).
  - rewrite (normal_mode_reordering_unfold _ _ _ _ _ _ _ _ sample_frequency_at
               sample_intensity_at reference_frequency_at reference_intensity_at).
    rewrite (normal_mode_reordering_unfold _ _ _ _ _ _ _ _ sample_frequency_at'
               sample_intensity_at' reference_frequency_at' reference_intensity_at').
    f_equal. apply for_range_ext. intros a st Ha. unfold reordering_body.
    destruct (Nat.eqb_spec a (length reference_frequency - 1)) as [E | E];
      [reflexivity |].
    assert (Ha' : (a + 1 < n)%nat) by (unfold n; lia).
    now rewrite (getitem_agree _ _ n a Hsf Ha), (getitem_agree _ _ n a Hsi Ha),
      (getitem_agree _ _ n a Hri Ha), (getitem_agree _ _ n (a + 1) Hsf Ha'),
      (getitem_agree _ _ n (a + 1) Hsi Ha'), (getitem_agree _ _ n (a + 1) Hri Ha').
Qed.
End SignFrame.

Section SelfComparison.
Local Open Scope R_scope.

Lemma zip_with_minus_self (l : list R) : zip_with Rminus l l = replicate (length l) 0.
Proof.
  induction l as [| x l IH]; [reflexivity |]. cbn [zip_with length replicate].
  rewrite IH. f_equal. lra.
Qed.

Lemma replicate_of_lookups {A : Type} (x : A) (l : list A) :
  (forall i, (i < length l)%nat -> l !! i = Some x) -> l = replicate (length l) x.
Proof.
  intros H. apply list_eq. intros i.
  destruct (Nat.lt_ge_cases i (length l)) as [Hi | Hi].
  - rewrite (H i Hi). symmetry. now apply lookup_replicate_2.
  - rewrite lookup_ge_None_2 by lia. symmetry. apply lookup_ge_None_2.
    rewrite length_replicate. lia.
Qed.

Lemma reordering_last_round (sf si rf ri : list R) :
  rf <> [] ->
  for_range (length rf) (reordering_body sf si rf ri) (mk_slope [] None)
  = (for_range (length rf - 1) (reordering_body sf si rf ri) (mk_slope [] None)
     ≫= fun st => Return (mk_slope (slope_sign st ++ [0%Z]) (slope_local_sign st))).
Proof.
  intros Hne.
  assert (Hn : (0 < length rf)%nat) by (destruct rf; [contradiction | simpl; lia]).
  replace (length rf) with (S (length rf - 1)) at 1 by lia.
  rewrite for_range_S.
  destruct (for_range (length rf - 1) _ _) as [st | e |]; mstep; try reflexivity.
  unfold reordering_body. now rewrite Nat.eqb_refl.
Qed.

Variables dir_frequencies dir_intensities : spectra.
Variables sample_index reference_index : Z.
Variables frequency intensity : list R.

Hypothesis sample_frequency_at : py_index dir_frequencies sample_index = Return frequency.
Hypothesis sample_intensity_at : py_index dir_intensities sample_index = Return intensity.
Hypothesis reference_frequency_at :
  py_index dir_frequencies reference_index = Return frequency.
Hypothesis reference_intensity_at :
  py_index dir_intensities reference_index = Return intensity.

(** X17.  A spectrum compared with itself, no intensity being zero:
    [wrong_signs] returns displacements all 0 and signs all +1. *)
Theorem wrong_signs_self :
  length intensity = length frequency ->
  (forall a v, intensity !! a = Some v -> v <> 0) ->
  wrong_signs dir_frequencies dir_intensities sample_index reference_index
  = Return (replicate (length frequency) 0, replicate (length frequency) 1%Z).
Proof.
  intros Hlen Hnz.
  destruct (wrong_signs_returns _ _ _ _ _ _ _ _ sample_frequency_at sample_intensity_at
              reference_frequency_at reference_intensity_at eq_refl Hlen Hlen)
    as (d & sg & Hrun & Hd & Hl & Hfol).
  - exact Hnz.
  - intros si ri Hs Hr. rewrite Hs in Hr. injection Hr as <-.
    apply Rdiv_nonzero; now apply (Hnz 0%nat).
  - rewrite Hrun, Hd, zip_with_minus_self. do 2 f_equal.
    rewrite <- Hl. apply replicate_of_lookups. intros i Hi.
    destruct (lookup_lt_is_Some_2 intensity i) as [v Hv]; [lia |].
    destruct (Hfol i v v) as (F & _ & _); [lia | exact Hv | exact Hv |].
    apply F. pose proof (Hnz i v Hv).
    replace (v / v) with 1 by now field. lra.
Qed.

(** X21.  A spectrum compared with itself, consecutive frequencies and
    consecutive intensities all different: [normal_mode_reordering] returns
    +1 at every index but the last, and the sentinel 0 there. *)
Theorem normal_mode_reordering_self :
  frequency <> [] -> length intensity = length frequency ->
  (forall a x y, frequency !! a = Some x -> frequency !! (a + 1)%nat = Some y -> x <> y) ->
  (forall a x y, intensity !! a = Some x -> intensity !! (a + 1)%nat = Some y -> x <> y) ->
  normal_mode_reordering dir_frequencies dir_intensities sample_index reference_index
  = Return (replicate (length frequency - 1) 1%Z ++ [0%Z]).
Proof.
  intros Hne Hlen Hf Hi.
  assert (Hratio : forall a, (a < length frequency - 1)%nat ->
            slope_ratio frequency intensity frequency intensity a = Some 1).
  { intros a Ha.
    destruct (lookup_lt_is_Some_2 frequency a) as [f0 Hf0]; [lia |].
    destruct (lookup_lt_is_Some_2 frequency (a + 1)) as [f1 Hf1]; [lia |].
    destruct (lookup_lt_is_Some_2 intensity a) as [i0 Hi0]; [lia |].
    destruct (lookup_lt_is_Some_2 intensity (a + 1)) as [i1 Hi1]; [lia |].
    pose proof (Hf a f0 f1 Hf0 Hf1). pose proof (Hi a i0 i1 Hi0 Hi1).
    unfold slope_ratio, slope. rewrite Hf0, Hf1, Hi0, Hi1. cbn.
    destruct (Req_dec_T (f1 - f0) 0) as [E | E]; [lra |]. cbn.
    assert (Hs : (i1 - i0) / (f1 - f0) <> 0) by (apply Rdiv_nonzero; lra).
    destruct (Req_dec_T ((i1 - i0) / (f1 - f0)) 0) as [E' | E']; [contradiction |].
    f_equal. now apply Rdiv_diag. }
  destruct (reordering_rounds frequency intensity frequency intensity
              (length frequency - 1)) as (st & Hrun & Hl & Hent); [lia | |].
  { intros a Ha. exists 1. split; [now apply Hratio | lra]. }
  rewrite (normal_mode_reordering_unfold _ _ _ _ _ _ _ _ sample_frequency_at
             sample_intensity_at reference_frequency_at reference_intensity_at).
  rewrite reordering_last_round by exact Hne. rewrite Hrun. mstep.
  cbn [slope_sign]. do 2 f_equal. rewrite <- Hl at 1.
  apply replicate_of_lookups. intros i Hi'.
  apply (Hent i 1); [lia | apply Hratio; lia | lra].
Qed.
End SelfComparison.

Section ReorderingShape.
Local Open Scope R_scope.

Variables dir_frequencies dir_intensities : spectra.
Variables sample_index reference_index : Z.
Variables sample_frequency sample_intensity : list R.
Variables reference_frequency reference_intensity : list R.

Hypothesis sample_frequency_at :
  py_index dir_frequencies sample_index = Return sample_frequency.
Hypothesis sample_intensity_at :
  py_index dir_intensities sample_index = Return sample_intensity.
Hypothesis reference_frequency_at :
  py_index dir_frequencies reference_index = Return reference_frequency.
Hypothesis reference_intensity_at :
  py_index dir_intensities reference_index = Return reference_intensity.


(** X20.  A flat first segment of the sample (equal first two sample
    intensities) gives the slope ratio zero at index 0, and
    [normal_mode_reordering] raises [UnboundLocalError]. *)
Theorem normal_mode_reordering_flat_start (rf0 rf1 ri0 ri1 sf0 sf1 si : R) :
  reference_frequency !! 0%nat = Some rf0 -> reference_frequency !! 1%nat = Some rf1 ->
  reference_intensity !! 0%nat = Some ri0 -> reference_intensity !! 1%nat = Some ri1 ->
  sample_frequency !! 0%nat = Some sf0 -> sample_frequency !! 1%nat = Some sf1 ->
  sample_intensity !! 0%nat = Some si -> sample_intensity !! 1%nat = Some si ->
  rf0 <> rf1 -> ri0 <> ri1 -> sf0 <> sf1 ->
  normal_mode_reordering dir_frequencies dir_intensities sample_index reference_index
  = Raise UnboundLocalError.
Proof.
  intros F0 F1 I0 I1 S0 S1 J0 J1 Hf Hi Hs.
  rewrite (normal_mode_reordering_unfold _ _ _ _ _ _ _ _ sample_frequency_at
             sample_intensity_at reference_frequency_at reference_intensity_at).
  assert (Hn : (2 <= length reference_frequency)%nat)
    by (apply lookup_lt_Some in F1; lia).
  assert (Hfirst : reordering_body sample_frequency sample_intensity reference_frequency
                     reference_intensity 0 (mk_slope [] None)
                   = Raise UnboundLocalError).
  { unfold reordering_body.
    destruct (Nat.eqb_spec 0 (length reference_frequency - 1)) as [E | _]; [lia |].
    change (0 + 1)%nat with 1%nat.
    rewrite (getitem_Some _ _ _ F0), (getitem_Some _ _ _ F1), (getitem_Some _ _ _ I0),
      (getitem_Some _ _ _ I1), (getitem_Some _ _ _ S0), (getitem_Some _ _ _ S1),
      (getitem_Some _ _ _ J0), (getitem_Some _ _ _ J1).
    mstep. rewrite !np_div_ok by lra. mstep.
    rewrite np_div_ok by (apply Rdiv_nonzero; lra). mstep.
    replace ((si - si) / (sf0 - sf1) / ((ri0 - ri1) / (rf0 - rf1))) with 0
      by (field; lra).
    now rewrite assign_sign_zero. }
  unfold for_range.
  destruct (length reference_frequency) as [| m]; [lia |].
  cbn [seq for_each]. now rewrite Hfirst.
Qed.
End ReorderingShape.

(** ** More on [opt_rot_averaging] *)

Section AveragingMore.
Local Open Scope R_scope.

Lemma benign_bind {A B : Type} (m : outcome A) (f : A -> outcome B) :
  benign m -> (forall a, m = Return a -> benign (f a)) -> benign (m ≫= f).
Proof. destruct m as [a | e |]; mstep; [intros _ H; now apply H | auto | auto]. Qed.

Lemma benign_getitem {A : Type} (l : list A) (i : nat) : benign (getitem l i).
Proof. unfold getitem. now destruct (l !! i). Qed.

Lemma benign_for_each {S : Type} (idx : list nat) (body : nat -> S -> outcome S) (s : S) :
  (forall a t, a ∈ idx -> benign (body a t)) -> benign (for_each idx body s).
Proof.
  revert s. induction idx as [| a idx IH]; intros s H; [exact I |].
  cbn [for_each]. apply benign_bind; [apply H; constructor |].
  intros t _. apply IH. intros b u Hb. apply H. now constructor.
Qed.

Lemma benign_for_range {S : Type} (n : nat) (body : nat -> S -> outcome S) (s : S) :
  (forall a t, benign (body a t)) -> benign (for_range n body s).
Proof. intros H. apply benign_for_each. intros a t _. apply H. Qed.

Lemma benign_channel_body (dir_intensities : spectra) (p5 : pyobj) (molecule_MM count : R)
    (a d b c : nat) (averages : list R) :
  py_float p5 = Return count -> divisor count molecule_MM <> 0 ->
  benign (channel_body dir_intensities p5 molecule_MM a d b c averages).
Proof.
  intros Hc Hd. unfold channel_body.
  apply benign_bind; [apply benign_getitem |]. intros row _.
  apply benign_bind; [apply benign_getitem |]. intros x _.
  rewrite Hc. mstep. unfold divisor in Hd.
  destruct (Req_dec_T molecule_MM 0); rewrite py_truediv_ok by exact Hd; mstep;
    (unfold add_at; apply benign_bind; [apply benign_getitem | now intros]).
Qed.

Lemma benign_molecule_averages (dir_intensities : spectra)
    (dir_parameters : list (list pyobj)) (molecule_MM : R) (a : nat) :
  benign (molecule_averages dir_intensities dir_parameters molecule_MM a).
Proof.
  unfold molecule_averages.
  apply benign_bind; [apply benign_getitem |]. intros params _.
  apply benign_bind; [apply benign_getitem |]. intros p6 _.
  apply benign_bind; [now destruct p6 |]. intros channels _.
  apply benign_bind; [apply benign_getitem |]. intros p5 _.
  destruct p5 as [s | r | l]; cbn [py_len py_int]; mstep; [| exact I | exact I].
  destruct (parse_int s) as [count |] eqn:E; mstep; [| exact I].
  destruct (Z_lt_le_dec 0 count) as [Hpos | Hle].
  - apply benign_for_range. intros b t. apply benign_for_range. intros c u.
    apply (benign_channel_body _ _ _ (IZR count)).
    + cbn [py_float]. now rewrite E.
    + now apply divisor_nonzero.
  - replace (Z.to_nat count) with 0%nat by lia. exact I.
Qed.

(** X22.  On every input [opt_rot_averaging] either returns or raises
    [IndexError], [TypeError] or [ValueError]: it never divides by zero,
    since a block is only read for a count of at least 1 and the molar mass
    only divides where it is not zero. *)
Theorem opt_rot_averaging_never_divides_by_zero {A : Type}
    (dir_intensities : spectra) (dir_parameters : list (list pyobj))
    (dir_list : list A) (molecule_MM : R) :
  benign (opt_rot_averaging dir_intensities dir_parameters dir_list molecule_MM)
  /\ opt_rot_averaging dir_intensities dir_parameters dir_list molecule_MM
     <> Raise ZeroDivisionError.
Proof.
  assert (H : benign (opt_rot_averaging dir_intensities dir_parameters dir_list
                        molecule_MM)).
  { unfold opt_rot_averaging. apply benign_for_range. intros a acc.
    apply benign_bind; [apply benign_molecule_averages | now intros]. }
  split; [exact H |]. intros E. now rewrite E in H.
Qed.
End AveragingMore.

Section AveragingShape.
Local Open Scope R_scope.

Lemma for_range_Return_inv {S : Type} (P : nat -> S -> Prop) (n : nat)
    (body : nat -> S -> outcome S) (s t : S) :
  P 0%nat s ->
  (forall k u u', (k < n)%nat -> P k u -> body k u = Return u' -> P (Datatypes.S k) u') ->
  for_range n body s = Return t -> P n t.
Proof.
  intros H0 Hstep Hrun.
  destruct (for_range_inv P n body s H0 Hstep) as [(t' & Ht & HP) | (k & u & _ & _ & Hk & Hno)].
  - rewrite Hrun in Ht. now injection Ht as <-.
  - rewrite Hrun in Hk. now destruct (Hno t).
Qed.

Lemma channel_body_length (dir_intensities : spectra) (p5 : pyobj) (molecule_MM : R)
    (a d b c : nat) (averages averages' : list R) :
  channel_body dir_intensities p5 molecule_MM a d b c averages = Return averages' ->
  length averages' = length averages.
Proof.
  unfold channel_body. intros H.
  destruct (bind_inv _ _ _ H) as (row & _ & H1). clear H.
  destruct (bind_inv _ _ _ H1) as (x & _ & H2). clear H1.
  destruct (bind_inv _ _ _ H2) as (count & _ & H3). clear H2.
  destruct (bind_inv _ _ _ H3) as (q & _ & H4). clear H3.
  unfold add_at in H4. destruct (bind_inv _ _ _ H4) as (old & _ & H5).
  injection H5 as <-. apply length_insert.
Qed.

Lemma molecule_averages_length (dir_intensities : spectra)
    (dir_parameters : list (list pyobj)) (molecule_MM : R) (a : nat) (averages : list R) :
  molecule_averages dir_intensities dir_parameters molecule_MM a = Return averages ->
  exists params, dir_parameters !! a = Some params
                 /\ length averages = channel_count params.
Proof.
  unfold molecule_averages. intros H.
  destruct (bind_inv _ _ _ H) as (params & Hp & H1). clear H.
  destruct (bind_inv _ _ _ H1) as (p6 & H6 & H2). clear H1.
  destruct (bind_inv _ _ _ H2) as (channels & Hc & H3). clear H2.
  destruct (bind_inv _ _ _ H3) as (p5 & _ & H4). clear H3.
  destruct (bind_inv _ _ _ H4) as (d & _ & H5). clear H4.
  destruct (bind_inv _ _ _ H5) as (count & _ & H7). clear H5.
  exists params. split; [now apply getitem_Return |].
  apply getitem_Return in H6.
  assert (Hcc : channel_count params = channels).
  { unfold channel_count. rewrite H6. destruct p6; cbn in Hc; congruence. }
  rewrite Hcc.
  apply (for_range_Return_inv (fun _ av => length av = channels) _ _ _ _
           (length_replicate channels 0)) in H7; [exact H7 |].
  intros b u u' _ Hu Hb.
  apply (for_range_Return_inv (fun _ av => length av = channels) _ _ _ _ Hu) in Hb;
    [exact Hb |].
  intros c v v' _ Hv Hbody. apply channel_body_length in Hbody. congruence.
Qed.

(** X23.  Whenever [opt_rot_averaging] returns, there is a parameter row for
    every molecule and the result holds one entry per channel of every
    molecule: its length is the sum of [len(dir_parameters[a][6])] over the
    molecules. *)
Theorem opt_rot_averaging_result_length {A : Type}
    (dir_intensities : spectra) (dir_parameters : list (list pyobj))
    (dir_list : list A) (molecule_MM : R) (result : list R) :
  opt_rot_averaging dir_intensities dir_parameters dir_list molecule_MM = Return result ->
  (length dir_list <= length dir_parameters)%nat
  /\ length result
     = sum_list (map channel_count (take (length dir_list) dir_parameters)).
Proof.
  unfold opt_rot_averaging. intros H.
  apply (for_range_Return_inv
           (fun k acc => (k <= length dir_parameters)%nat
                         /\ length acc
                            = sum_list (map channel_count (take k dir_parameters))))
    in H; [exact H | split; [lia | now rewrite take_0] |].
  intros k acc acc' _ [Hk Hacc] Hbody.
  destruct (bind_inv _ _ _ Hbody) as (averages & Hav & Hret). injection Hret as <-.
  destruct (molecule_averages_length _ _ _ _ _ Hav) as (params & Hp & Hl).
  split; [apply lookup_lt_Some in Hp; lia |].
  rewrite (take_S_r _ _ _ Hp), map_app, length_app, Hacc, Hl.
  cbn [map]. rewrite sum_list_with_app. simpl. lia.
Qed.
End AveragingShape.

Section AveragingEdges.
Local Open Scope R_scope.

Lemma opt_rot_averaging_first {A : Type} (dir_intensities : spectra)
    (dir_parameters : list (list pyobj)) (molecule : A) (rest : list A)
    (molecule_MM : R) :
  opt_rot_averaging dir_intensities dir_parameters (molecule :: rest) molecule_MM
  = (averages ← molecule_averages dir_intensities dir_parameters molecule_MM 0;
     for_each (seq 1 (length rest))
       (fun a opt_rot_averages =>
          averages ← molecule_averages dir_intensities dir_parameters molecule_MM a;
          Return (opt_rot_averages ++ averages))
       averages).
Proof.
  unfold opt_rot_averaging, for_range. cbn [length seq for_each].
  now destruct (molecule_averages dir_intensities dir_parameters molecule_MM 0).
Qed.

(** X24.  A count that [int] reads as zero or negative means no block is
    read: the molecule's averages are all 0, one per channel, whatever the
    intensities hold (they may even be missing). *)
Theorem opt_rot_averaging_no_blocks {A : Type} (molecule : A) (dir_intensities : spectra)
    (params : list pyobj) (s : string) (p6 : pyobj) (channels : nat) (count : Z)
    (molecule_MM : R) :
  params !! 5%nat = Some (PyStr s) ->
  params !! 6%nat = Some p6 ->
  py_len p6 = Return channels ->
  parse_int s = Some count -> (count <= 0)%Z ->
  opt_rot_averaging dir_intensities [params] [molecule] molecule_MM
  = Return (replicate channels 0).
Proof.
  intros H5 H6 Hlen Hint Hle. rewrite opt_rot_averaging_first.
  unfold molecule_averages. cbn [getitem lookup list_lookup]. mstep.
  rewrite (getitem_Some _ _ _ H6). mstep. rewrite Hlen. mstep.
  rewrite (getitem_Some _ _ _ H5). mstep. cbn [py_len py_int]. mstep.
  rewrite Hint. mstep. replace (Z.to_nat count) with 0%nat by lia.
  reflexivity.
Qed.

(** X25.  What the first molecule's parameter row can raise: [IndexError]
    when there is no row or the row has fewer than seven entries,
    [TypeError] when entry 5 is a number (it has no [len]) or entry 6 is, and
    [ValueError] when entry 5 is a string that [int] rejects. *)
Theorem opt_rot_averaging_row_errors {A : Type} (molecule : A) (rest : list A)
    (dir_intensities : spectra) (dir_parameters : list (list pyobj)) (molecule_MM : R) :
  (dir_parameters = [] ->
   opt_rot_averaging dir_intensities dir_parameters (molecule :: rest) molecule_MM
   = Raise IndexError)
  /\ (forall params,
        dir_parameters !! 0%nat = Some params -> (length params < 7)%nat ->
        opt_rot_averaging dir_intensities dir_parameters (molecule :: rest) molecule_MM
        = Raise IndexError)
  /\ (forall params r,
        dir_parameters !! 0%nat = Some params -> params !! 6%nat = Some (PyNum r) ->
        opt_rot_averaging dir_intensities dir_parameters (molecule :: rest) molecule_MM
        = Raise TypeError)
  /\ (forall params p6 channels r,
        dir_parameters !! 0%nat = Some params -> params !! 6%nat = Some p6 ->
        py_len p6 = Return channels -> params !! 5%nat = Some (PyNum r) ->
        opt_rot_averaging dir_intensities dir_parameters (molecule :: rest) molecule_MM
        = Raise TypeError)
  /\ (forall params p6 channels s,
        dir_parameters !! 0%nat = Some params -> params !! 6%nat = Some p6 ->
        py_len p6 = Return channels -> params !! 5%nat = Some (PyStr s) ->
        parse_int s = None ->
        opt_rot_averaging dir_intensities dir_parameters (molecule :: rest) molecule_MM
        = Raise ValueError).
Proof.
  repeat split.
  - intros ->. now rewrite opt_rot_averaging_first.
  - intros params Hp Hlen. rewrite opt_rot_averaging_first. unfold molecule_averages.
    rewrite (getitem_Some _ _ _ Hp). mstep.
    assert (E : getitem params 6 = Raise IndexError)
      by (unfold getitem; now rewrite lookup_ge_None_2 by lia).
    now rewrite E.
  - intros params r Hp H6. rewrite opt_rot_averaging_first. unfold molecule_averages.
    rewrite (getitem_Some _ _ _ Hp). mstep. now rewrite (getitem_Some _ _ _ H6).
  - intros params p6 channels r Hp H6 Hlen H5. rewrite opt_rot_averaging_first.
    unfold molecule_averages.
    rewrite (getitem_Some _ _ _ Hp). mstep. rewrite (getitem_Some _ _ _ H6). mstep.
    rewrite Hlen. mstep. now rewrite (getitem_Some _ _ _ H5).
  - intros params p6 channels s Hp H6 Hlen H5 Hint. rewrite opt_rot_averaging_first.
    unfold molecule_averages.
    rewrite (getitem_Some _ _ _ Hp). mstep. rewrite (getitem_Some _ _ _ H6). mstep.
    rewrite Hlen. mstep. rewrite (getitem_Some _ _ _ H5). mstep.
    cbn [py_len py_int]. mstep. now rewrite Hint.
Qed.
End AveragingEdges.

(** ** Negative indices *)

Section NegativeIndices.
Variables dir_frequencies dir_intensities : spectra.

Lemma py_index_same_position {A : Type} (l : list A) (i i' : Z) :
  same_position (length l) i i' -> py_index l i = py_index l i'.
Proof.
  intros [-> | [H ->]]; [reflexivity | now apply py_index_negative].
Qed.

(** X2.  A negative index counts from the end of the collections: with [n]
    spectra in both, the index [i] in [-n, 0) and the index [n + i] select
    the same sequences, and each of the six comparison functions gives the
    same outcome for either. *)
Theorem negative_index_from_end (sample_index reference_index sample_index'
    reference_index' : Z) :
  length dir_frequencies = length dir_intensities ->
  same_position (length dir_intensities) sample_index sample_index' ->
  same_position (length dir_intensities) reference_index reference_index' ->
  single_denominator_overlap dir_frequencies dir_intensities sample_index reference_index
  = single_denominator_overlap dir_frequencies dir_intensities
      sample_index' reference_index'
  /\ double_denominator_overlap dir_frequencies dir_intensities sample_index reference_index
     = double_denominator_overlap dir_frequencies dir_intensities
         sample_index' reference_index'
  /\ integrated_difference dir_frequencies dir_intensities sample_index reference_index
     = integrated_difference dir_frequencies dir_intensities sample_index' reference_index'
  /\ compute_statistics dir_intensities sample_index reference_index
     = compute_statistics dir_intensities sample_index' reference_index'
  /\ wrong_signs dir_frequencies dir_intensities sample_index reference_index
     = wrong_signs dir_frequencies dir_intensities sample_index' reference_index'
  /\ normal_mode_reordering dir_frequencies dir_intensities sample_index reference_index
     = normal_mode_reordering dir_frequencies dir_intensities
         sample_index' reference_index'.
Proof.
  intros Hlen Hs Hr.
  assert (Hs' := Hs). assert (Hr' := Hr). rewrite <- Hlen in Hs', Hr'.
  unfold single_denominator_overlap, double_denominator_overlap, integrated_difference,
    compute_statistics, wrong_signs, normal_mode_reordering.
  rewrite (py_index_same_position dir_intensities _ _ Hs),
    (py_index_same_position dir_intensities _ _ Hr),
    (py_index_same_position dir_frequencies _ _ Hs'),
    (py_index_same_position dir_frequencies _ _ Hr').
  repeat split; reflexivity.
Qed.
End NegativeIndices.

(** * Concrete runs of the further properties *)

Section MoreRuns.
Local Open Scope R_scope.

Ltac nonzero := repeat apply Rdiv_nonzero; lra.

Ltac overlap_value :=
  unfold self_overlap; simpl; apply (f_equal Return); unfold Rsum; simpl; lra.

Lemma axis_012_nondecreasing : nondecreasing [0; 1; 2].
Proof.
  intros [| [| [| i]]] a b Ha Hb; simpl in Ha, Hb; try discriminate Hb;
    injection Ha as <-; injection Hb as <-; lra.
Qed.

Lemma index_out_of_range_raises_witness :
  single_denominator_overlap [[0; 1]] [[1; 2]] 1 0 = Raise IndexError
  /\ compute_statistics [[1; 2]] 0 (-2) = Raise IndexError
  /\ wrong_signs [[0; 1]] [[1; 2]] 0 1 = Raise IndexError.
Proof.
  split; [| split].
  - apply (proj1 (index_out_of_range_raises [[0; 1]] [[1; 2]] 1%Z 0%Z)).
    left. unfold outside. simpl. lia.
  - apply (proj1 (proj2 (index_out_of_range_raises [] [[1; 2]] 0%Z (-2)%Z))).
    right. unfold outside. simpl. lia.
  - apply (proj2 (proj2 (index_out_of_range_raises [[0; 1]] [[1; 2]] 0%Z 1%Z))).
    right. right. left. unfold outside. simpl. lia.
Defined.

Lemma negative_index_from_end_witness :
  wrong_signs [[0; 1; 2]; [0; 1; 2]] [[1; 2; 3]; [1; -2; 3]] (-1) 0
  = wrong_signs [[0; 1; 2]; [0; 1; 2]] [[1; 2; 3]; [1; -2; 3]] 1 0.
Proof.
  apply (negative_index_from_end [[0; 1; 2]; [0; 1; 2]] [[1; 2; 3]; [1; -2; 3]]
           (-1)%Z 0%Z 1%Z 0%Z).
  - reflexivity.
  - right. simpl. lia.
  - now left.
Defined.

Lemma single_overlap_identical_witness :
  single_denominator_overlap [[0; 1; 2]] [[1; 2; 3]; [1; 2; 3]] 1 0 = Return 1.
Proof.
  apply (single_overlap_identical [[0; 1; 2]] [[1; 2; 3]; [1; 2; 3]] 1 0
           [1; 2; 3] [1; 2; 3] [0; 1; 2] eq_refl eq_refl eq_refl 9);
    [reflexivity | overlap_value | lra].
Defined.

Lemma double_overlap_bounded_witness :
  exists v, double_denominator_overlap [[0; 1; 2]] [[1; 2; 3]; [3; 1; 2]] 1 0 = Return v
            /\ -1 <= v <= 1.
Proof.
  apply (double_overlap_bounded [[0; 1; 2]] [[1; 2; 3]; [3; 1; 2]] 1 0
           [3; 1; 2] [1; 2; 3] [0; 1; 2] eq_refl eq_refl eq_refl 9 (15 / 2));
    [reflexivity | reflexivity | exact axis_012_nondecreasing
     | overlap_value | lra | overlap_value | lra].
Defined.

Lemma double_overlap_symmetric_witness :
  double_denominator_overlap [[0; 1; 2]; [0; 1; 2]] [[1; 2; 3]; [3; 1; 2]] 1 0
  = double_denominator_overlap [[0; 1; 2]; [0; 1; 2]] [[1; 2; 3]; [3; 1; 2]] 0 1.
Proof.
  apply (double_overlap_symmetric [[0; 1; 2]; [0; 1; 2]] [[1; 2; 3]; [3; 1; 2]] 1 0
           [3; 1; 2] [1; 2; 3] [0; 1; 2] eq_refl eq_refl eq_refl).
  reflexivity.
Defined.

Lemma double_overlap_squared_witness :
  exists a b c,
    single_denominator_overlap [[0; 1; 2]; [0; 1; 2]] [[1; 2; 3]; [3; 1; 2]] 1 0 = Return a
    /\ single_denominator_overlap [[0; 1; 2]; [0; 1; 2]] [[1; 2; 3]; [3; 1; 2]] 0 1
       = Return b
    /\ double_denominator_overlap [[0; 1; 2]; [0; 1; 2]] [[1; 2; 3]; [3; 1; 2]] 1 0
       = Return c
    /\ c * c = a * b.
Proof.
  apply (double_overlap_squared [[0; 1; 2]; [0; 1; 2]] [[1; 2; 3]; [3; 1; 2]] 1 0
           [3; 1; 2] [1; 2; 3] [0; 1; 2] eq_refl eq_refl eq_refl 9 (15 / 2));
    [reflexivity | reflexivity | overlap_value | lra | overlap_value | lra].
Defined.

Lemma scaling_sample_intensity_witness :
  single_denominator_overlap [[0; 1; 2]] [[1; 2; 3]; map (Rmult (-2)) [3; 1; 2]] 1 0
  = Rmult (-2) <$> single_denominator_overlap [[0; 1; 2]] [[1; 2; 3]; [3; 1; 2]] 1 0
  /\ double_denominator_overlap [[0; 1; 2]] [[1; 2; 3]; map (Rmult (-2)) [3; 1; 2]] 1 0
     = Rmult (-2 / Rabs (-2))
         <$> double_denominator_overlap [[0; 1; 2]] [[1; 2; 3]; [3; 1; 2]] 1 0.
Proof.
  apply (scaling_sample_intensity [[0; 1; 2]] [[1; 2; 3]; [3; 1; 2]] 1 0
           [3; 1; 2] [1; 2; 3] [0; 1; 2] eq_refl eq_refl eq_refl
           [[1; 2; 3]; map (Rmult (-2)) [3; 1; 2]] (-2));
    [lra | reflexivity | reflexivity].
Defined.

Lemma integrated_difference_value_witness :
  exists v, integrated_difference [[0; 1; 2]] [[1; 2; 3]; [3; 1; 2]] 1 0 = Return v
            /\ v = 1 - 15 / 2 / 9.
Proof.
  destruct (integrated_difference_value [[0; 1; 2]] [[1; 2; 3]; [3; 1; 2]] 1 0
              [3; 1; 2] [1; 2; 3] [0; 1; 2] eq_refl eq_refl eq_refl 9 (15 / 2))
    as (v & Hv & E & _); [overlap_value | lra | overlap_value |].
  exists v. split; assumption.
Defined.


Lemma overlap_zero_reference_witness :
  single_denominator_overlap [[0; 1; 2]] [[0; 0; 0]; [3; 1; 2]] 1 0 = NonFinite
  /\ double_denominator_overlap [[0; 1; 2]] [[0; 0; 0]; [3; 1; 2]] 1 0 = NonFinite
  /\ integrated_difference [[0; 1; 2]] [[0; 0; 0]; [3; 1; 2]] 1 0 = NonFinite.
Proof.
  apply (overlap_zero_reference [[0; 1; 2]] [[0; 0; 0]; [3; 1; 2]] 1 0
           [3; 1; 2] [0; 0; 0] [0; 1; 2] eq_refl eq_refl eq_refl);
    [reflexivity | reflexivity | overlap_value].
Defined.
Lemma compute_statistics_empty_witness :
  compute_statistics [[]; [1; 2]] 0 1 = Raise UnboundLocalError.
Proof.
  apply (compute_statistics_empty [[]; [1; 2]] 0 1 [] [1; 2] eq_refl eq_refl eq_refl).
Defined.

Lemma compute_statistics_reference_too_short_witness :
  compute_statistics [[1; 2; 3]; [1]] 0 1 = Raise IndexError.
Proof.
  apply (compute_statistics_reference_too_short [[1; 2; 3]; [1]] 0 1 [1; 2; 3] [1]
           eq_refl eq_refl).
  simpl. lia.
Defined.

Lemma compute_statistics_symmetric_witness :
  compute_statistics [[1; 2; 3]; [2; 5; 1]] 0 1
  = compute_statistics [[1; 2; 3]; [2; 5; 1]] 1 0.
Proof.
  apply (compute_statistics_symmetric [[1; 2; 3]; [2; 5; 1]] 0 1 [1; 2; 3] [2; 5; 1]
           eq_refl eq_refl); [discriminate | reflexivity].
Defined.

Lemma reference_variance_underestimated_witness :
  exists st rv,
    variance_loop [1; 2] [1; 2; 6] (np_average [1; 2]) (np_average [1; 2; 6]) = Return st
    /\ reference_variance st = Some rv
    /\ 0 <= rv <= population_variance [1; 2; 6].
Proof.
  apply (reference_variance_underestimated [1; 2] [1; 2; 6]);
    [discriminate | simpl; lia].
Defined.

Lemma compute_statistics_shift_invariant_witness :
  compute_statistics [map (Rplus 10) [1; 2]; map (Rplus 10) [1; 2; 6]] 0 1
  = compute_statistics [[1; 2]; [1; 2; 6]] 0 1.
Proof.
  apply (compute_statistics_shift_invariant [[1; 2]; [1; 2; 6]] 0 1 [1; 2] [1; 2; 6]
           eq_refl eq_refl [map (Rplus 10) [1; 2]; map (Rplus 10) [1; 2; 6]] 10);
    [reflexivity | reflexivity | discriminate | simpl; lia].
Defined.



Lemma wrong_signs_self_witness :
  wrong_signs [[0; 1; 2]] [[1; -2; 3]] 0 0
  = Return (replicate 3 0, replicate 3 1%Z).
Proof.
  apply (wrong_signs_self [[0; 1; 2]] [[1; -2; 3]] 0 0 [0; 1; 2] [1; -2; 3]
           eq_refl eq_refl eq_refl eq_refl); [reflexivity |].
  intros [| [| [| a]]] v Hv; simpl in Hv; try discriminate Hv; injection Hv as <-; lra.
Defined.

Lemma sign_diagnostics_read_prefix_witness :
  wrong_signs [[0; 1]; [0; 1]] [[1; 2]; [1; -2]] 1 0
  = wrong_signs [[0; 1]; [0; 1; 9]] [[1; 2; 5]; [1; -2; 8]] 1 0
  /\ normal_mode_reordering [[0; 1]; [0; 1]] [[1; 2]; [1; -2]] 1 0
     = normal_mode_reordering [[0; 1]; [0; 1; 9]] [[1; 2; 5]; [1; -2; 8]] 1 0.
Proof.
  apply (sign_diagnostics_read_prefix [[0; 1]; [0; 1]] [[1; 2]; [1; -2]]
           [[0; 1]; [0; 1; 9]] [[1; 2; 5]; [1; -2; 8]] 1 0
           [0; 1] [1; -2] [1; 2] [0; 1; 9] [1; -2; 8] [1; 2; 5] [0; 1]
           eq_refl eq_refl eq_refl eq_refl eq_refl eq_refl eq_refl eq_refl);
    reflexivity.
Defined.


Lemma normal_mode_reordering_flat_start_witness :
  normal_mode_reordering [[0; 1; 2]; [0; 1; 2]] [[1; 2; 4]; [5; 5; 2]] 1 0
  = Raise UnboundLocalError.
Proof.
  apply (normal_mode_reordering_flat_start [[0; 1; 2]; [0; 1; 2]] [[1; 2; 4]; [5; 5; 2]]
           1 0 [0; 1; 2] [5; 5; 2] [0; 1; 2] [1; 2; 4] eq_refl eq_refl eq_refl eq_refl
           0 1 1 2 0 1 5); try reflexivity; lra.
Defined.

Lemma normal_mode_reordering_self_witness :
  normal_mode_reordering [[0; 1; 2]] [[1; 3; 2]] 0 0 = Return (replicate 2 1%Z ++ [0%Z]).
Proof.
  apply (normal_mode_reordering_self [[0; 1; 2]] [[1; 3; 2]] 0 0 [0; 1; 2] [1; 3; 2]
           eq_refl eq_refl eq_refl eq_refl); [discriminate | reflexivity | |];
    intros [| [| [| a]]] x y Hx Hy; simpl in Hx, Hy; try discriminate Hy;
    injection Hx as <-; injection Hy as <-; lra.
Defined.

Lemma opt_rot_averaging_run :
  opt_rot_averaging [[1; 2; 3; 4]] [parameter_row "02" [PyNum 589; PyNum 355]] [tt] 0
  = Return [0 + 1 / 2 + 3 / 2; 0 + 2 / 2 + 4 / 2].
Proof. eval_average. reflexivity. Qed.

Lemma opt_rot_averaging_result_length_witness :
  (length [tt] <= length [parameter_row "02" [PyNum 589; PyNum 355]])%nat
  /\ length [0 + 1 / 2 + 3 / 2; 0 + 2 / 2 + 4 / 2]
     = sum_list (map channel_count
                   (take (length [tt]) [parameter_row "02" [PyNum 589; PyNum 355]])).
Proof.
  apply (opt_rot_averaging_result_length [[1; 2; 3; 4]]
           [parameter_row "02" [PyNum 589; PyNum 355]] [tt] 0 _ opt_rot_averaging_run).
Defined.

Lemma opt_rot_averaging_no_blocks_witness :
  opt_rot_averaging [] [parameter_row "0" [PyNum 589; PyNum 355]] [tt] 2
  = Return (replicate 2 0).
Proof.
  apply (opt_rot_averaging_no_blocks tt [] (parameter_row "0" [PyNum 589; PyNum 355])
           "0" (PyList [PyNum 589; PyNum 355]) 2 0 2); first [reflexivity | lia].
Defined.

Lemma opt_rot_averaging_row_errors_witness :
  opt_rot_averaging [[1; 2; 3; 4]] [[PyStr "OR"; PyStr "2"]] [tt] 0 = Raise IndexError
  /\ opt_rot_averaging [[1; 2; 3; 4]] [parameter_row "two" [PyNum 589]] [tt] 0
     = Raise ValueError.
Proof.
  split.
  - apply (proj1 (proj2 (opt_rot_averaging_row_errors tt [] [[1; 2; 3; 4]]
                           [[PyStr "OR"; PyStr "2"]] 0)) [PyStr "OR"; PyStr "2"]);
      [reflexivity | simpl; lia].
  - apply (proj2 (proj2 (proj2 (proj2 (opt_rot_averaging_row_errors tt [] [[1; 2; 3; 4]]
                                         [parameter_row "two" [PyNum 589]] 0))))
             (parameter_row "two" [PyNum 589]) (PyList [PyNum 589]) 1%nat "two");
      reflexivity.
Defined.

Lemma opt_rot_averaging_one_molecule_witness :
  exists averages,
    opt_rot_averaging [[1; 2; 3; 4]] [parameter_row "2" [PyNum 589; PyNum 355]] [tt] 0
    = Return averages
    /\ averages !! 1%nat = Some (strided_sum [1; 2; 3; 4] 1 1 2 (divisor 2 0)).
Proof.
  destruct (opt_rot_averaging_one_molecule tt [1; 2; 3; 4]
              (parameter_row "2" [PyNum 589; PyNum 355]) "2"
              (PyList [PyNum 589; PyNum 355]) 2 2 0)
    as (averages & Hrun & _ & Hav); try reflexivity.
  - intros b c Hb Hc. simpl in *. lia.
  - exists averages. split; [exact Hrun |]. apply (Hav 1%nat). lia.
Defined.
End MoreRuns.
